(** * Body: the request dispatcher of @ouroboros/body

    A shallow embedding of [src/index.ts]: the [Body] class with its six
    callback slots, its domain and session token, and the [request] routine
    with the promise chain it hangs on [fetch].

    The transport ([fetch]), the JSON reader of the response and the user's
    hooks are outside the repository: the way the promise of [fetch] settles
    is an input of [request], and every hook invocation is recorded in a
    trace together with the completion the hook's behaviour yields. A hook
    is what it returns or throws; what a hook may do to the instance by
    calling back into it is its own doing, not that of [request]. *)

From Stdlib Require Import ZArith String Ascii List Bool Lia DecimalString.
From stdpp Require Import gmap strings list fin_maps.

#[local] Set Warnings "-register-all".

Local Open Scope Z_scope.

(** ** JavaScript values that carry no function *)

Module JSON.

(** *** Numbers *)

(** A Number is given by a decimal literal, the way JSON and the
    language write one: [negative], [digits] and [exponent] stand for the
    Number value of [(-1)^negative * digits * 10^exponent], that is the
    IEEE 754 binary64 value nearest to it, ties to even. Every finite
    Number is the value of such a literal; [NaN] is not among them. *)
Record number := {
  negative : bool;
  digits : N;
  exponent : Z
}.

Definition literal (neg : bool) (d : N) (e : Z) : number :=
  {| negative := neg; digits := d; exponent := e |}.

(** The Number value of an integer literal. *)
Definition integer (n : Z) : number :=
  {| negative := n <? 0; digits := Z.abs_N n; exponent := 0 |}.
Coercion integer : Z >-> number.

(** The magnitude of a binary64 value: zero, [m * 2^e] with
    [2^52 <= m < 2^53] and [-1074 <= e <= 971] (or [m < 2^52] and
    [e = -1074] for a subnormal), or infinity. *)
Inductive binary64 :=
| Zero64
| Finite64 (m e : Z)
| Infinite64.

Definition binary64_eqb (x y : binary64) : bool :=
  match x, y with
  | Zero64, Zero64 => true
  | Finite64 m e, Finite64 m' e' => (m =? m') && (e =? e')
  | Infinite64, Infinite64 => true
  | _, _ => false
  end.

(** The fraction [a / b] times [base^n], as a fraction. *)
Definition scale (base a b n : Z) : Z * Z :=
  if 0 <=? n then (a * base ^ n, b) else (a, b * base ^ (- n)).

(** The binary64 value nearest to the fraction [a / b] of a natural and a
    positive number, ties to even. *)
Definition round_to_binary64 (a b : Z) : binary64 :=
  if a =? 0 then Zero64
  else
    let l := Z.log2 a - Z.log2 b in
    let e1 := Z.max (l - 52) (-1074) in
    let '(a1, b1) := scale 2 a b (- e1) in
    let e := if (-1074 <? e1) && (a1 / b1 <? 2 ^ 52) then e1 - 1 else e1 in
    let '(a2, b2) := scale 2 a b (- e) in
    let q := a2 / b2 in
    let r := a2 mod b2 in
    let m := if (b2 <? 2 * r) || ((b2 =? 2 * r) && Z.odd q) then q + 1 else q in
    let '(m, e) := if m =? 2 ^ 53 then (2 ^ 52, e + 1) else (m, e) in
    if m =? 0 then Zero64
    else if 971 <? e then Infinite64
    else Finite64 m e.

(** The magnitude of the Number value of a literal. *)
Definition magnitude (x : number) : binary64 :=
  let '(a, b) := scale 10 (Z.of_N (digits x)) 1 (exponent x) in
  round_to_binary64 a b.

(** [x === 0] (of either sign) and [isFinite(x)] *)
Definition is_zero (x : number) : bool := binary64_eqb (magnitude x) Zero64.
Definition is_finite (x : number) : bool := negb (binary64_eqb (magnitude x) Infinite64).

(** The [n] with [10^(n-1) <= a / b < 10^n], looked for upwards from [n]. *)
Fixpoint decimal_exponent (fuel : nat) (a b n : Z) : Z :=
  match fuel with
  | O => n
  | S fuel' =>
      let '(a', b') := scale 10 a b (- n) in
      if a' <? b' then n else decimal_exponent fuel' a b (n + 1)
  end.

(** Number::toString, step 5: the integers [s] and [n] of the shortest
    decimal [s * 10^(n-k)] whose Number value is [m * 2^e = a / b], [k]
    being the number of digits of [s]; of two decimals of that length the
    one closer to [a / b], and the even one when they are as close. *)
Fixpoint shortest (fuel : nat) (m e a b n k : Z) : Z * Z :=
  let '(a', b') := scale 10 a b (k - n) in
  let lo := a' / b' in
  let hi := lo + 1 in
  let ok s :=
    let '(c, d) := scale 10 s 1 (n - k) in
    binary64_eqb (round_to_binary64 c d) (Finite64 m e) in
  let pick s := if s =? 10 ^ k then (1, n + 1) else (s, n) in
  match fuel with
  | O => pick lo
  | S fuel' =>
      match ok lo, ok hi with
      | true, true =>
          let twice := 2 * a' in
          let mid := (2 * lo + 1) * b' in
          if twice <? mid then pick lo
          else if mid <? twice then pick hi
          else if Z.even lo then pick lo else pick hi
      | true, false => pick lo
      | false, true => pick hi
      | false, false => shortest fuel' m e a b n (k + 1)
      end
  end.

(** The decimal digits of a natural number. *)
Definition decimal (n : Z) : string := NilZero.string_of_uint (N.to_uint (Z.to_N n)).

Fixpoint zeros (n : nat) : string :=
  match n with
  | O => EmptyString
  | S n' => String "0" (zeros n')
  end.

(** Number::toString, steps 6 to 10, for the digits [ds] of [s]: plain
    digits when [n] is between -5 and 21, the exponent form otherwise. *)
Definition layout (ds : string) (n : Z) : string :=
  let k := Z.of_nat (String.length ds) in
  if (k <=? n) && (n <=? 21) then ds +:+ zeros (Z.to_nat (n - k))
  else if (0 <? n) && (n <=? 21) then
    substring 0 (Z.to_nat n) ds +:+ "." +:+ substring (Z.to_nat n) (Z.to_nat (k - n)) ds
  else if (-6 <? n) && (n <=? 0) then "0." +:+ zeros (Z.to_nat (- n)) +:+ ds
  else
    (if k =? 1 then ds
     else substring 0 1 ds +:+ "." +:+ substring 1 (Z.to_nat (k - 1)) ds)
    +:+ "e" +:+ (if 0 <=? n - 1 then "+" else "-") +:+ decimal (Z.abs (n - 1)).

(** Number::toString(x) in radix 10, which is [String(x)] and what a
    template literal makes of a Number. *)
Definition number_to_string (x : number) : string :=
  match magnitude x with
  | Zero64 => "0"
  | Infinite64 => if negative x then "-Infinity" else "Infinity"
  | Finite64 m e =>
      let '(a, b) := scale 2 m 1 e in
      let n0 := decimal_exponent 8 a b ((Z.log2 a - Z.log2 b) * 30103 / 100000 - 2) in
      let '(s, n) := shortest 17 m e a b n0 1 in
      (if negative x then "-" else "") +:+ layout (decimal s) n
  end.

(** *** Values *)

(** The values [JSON.parse] produces and [JSON.stringify] accepts. An
    object lists its properties in enumeration order and a property read
    takes the first binding. *)
Inductive json :=
| JNull
| JBool (b : bool)
| JNum (x : number)
| JStr (s : string)
| JArr (l : list json)
| JObj (l : list (string * json)).

(** ToBoolean: [null], [false], [0] and the empty string are falsy. *)
Definition truthy (j : json) : bool :=
  match j with
  | JNull => false
  | JBool b => b
  | JNum x => negb (is_zero x)
  | JStr s => negb (String.eqb s "")
  | JArr _ | JObj _ => true
  end.

(** [obj.key] on a parsed object: the property, or [undefined]. *)
Fixpoint assoc (key : string) (l : list (string * json)) : option json :=
  match l with
  | [] => None
  | (k, v) :: l' => if String.eqb k key then Some v else assoc key l'
  end.

Definition dquote : string := String (ascii_of_nat 34) EmptyString.
Definition backslash : string := String (ascii_of_nat 92) EmptyString.

Definition hex_digit (upper : bool) (n : nat) : ascii :=
  if (n <? 10)%nat then ascii_of_nat (48 + n)
  else ascii_of_nat ((if upper then 55 else 87) + n).

Definition hex_byte (upper : bool) (c : ascii) : string :=
  let n := nat_of_ascii c in
  String (hex_digit upper (n / 16)) (String (hex_digit upper (n mod 16)) EmptyString).

(** QuoteJSONString on one code unit. *)
Definition escape_char (c : ascii) : string :=
  let n := nat_of_ascii c in
  if (n =? 34)%nat then backslash +:+ dquote
  else if (n =? 92)%nat then backslash +:+ backslash
  else if (n =? 8)%nat then backslash +:+ "b"
  else if (n =? 9)%nat then backslash +:+ "t"
  else if (n =? 10)%nat then backslash +:+ "n"
  else if (n =? 12)%nat then backslash +:+ "f"
  else if (n =? 13)%nat then backslash +:+ "r"
  else if (n <? 32)%nat then backslash +:+ "u00" +:+ hex_byte false c
  else String c EmptyString.

Fixpoint escape (s : string) : string :=
  match s with
  | EmptyString => EmptyString
  | String c s' => escape_char c +:+ escape s'
  end.

Definition quote (s : string) : string := dquote +:+ escape s +:+ dquote.

Fixpoint join (sep : string) (l : list string) : string :=
  match l with
  | [] => ""
  | [x] => x
  | x :: l' => x +:+ sep +:+ join sep l'
  end.

(** [JSON.stringify(value)] with no replacer and no indentation; a Number
    that is not finite is written [null]. *)
Fixpoint stringify (j : json) : string :=
  match j with
  | JNull => "null"
  | JBool true => "true"
  | JBool false => "false"
  | JNum x => if is_finite x then number_to_string x else "null"
  | JStr s => quote s
  | JArr l => "[" +:+ join "," (map stringify l) +:+ "]"
  | JObj l =>
      "{" +:+ join "," (map (fun kv => quote (fst kv) +:+ ":" +:+ stringify (snd kv)) l) +:+ "}"
  end.

(** [encodeURIComponent]: every byte of the UTF-8 text outside
    [A-Z a-z 0-9 - _ . ! ~ * ' ( )] becomes [%XX]. *)
Definition unreserved (c : ascii) : bool :=
  let n := nat_of_ascii c in
  ((65 <=? n) && (n <=? 90) || (97 <=? n) && (n <=? 122) || (48 <=? n) && (n <=? 57)
   || (n =? 45) || (n =? 95) || (n =? 46) || (n =? 33) || (n =? 126)
   || (n =? 42) || (n =? 39) || (n =? 40) || (n =? 41))%nat.

Fixpoint encodeURIComponent (s : string) : string :=
  match s with
  | EmptyString => EmptyString
  | String c s' =>
      (if unreserved c then String c EmptyString else "%" +:+ hex_byte true c)
        +:+ encodeURIComponent s'
  end.

End JSON.
Export JSON.

(** ** Errors, hooks and what a callback slot may hold *)

(** An [Error] object: its [name] and its [message]. *)
Record exn := { err_name : string; err_message : string }.

Definition Error (message : string) : exn :=
  {| err_name := "Error"; err_message := message |}.

Definition TypeError (message : string) : exn :=
  {| err_name := "TypeError"; err_message := message |}.

(** [String(reason)] on an error object (Error.prototype.toString). *)
Definition exn_to_string (e : exn) : string :=
  if String.eqb (err_name e) "" then err_message e
  else if String.eqb (err_message e) "" then err_name e
  else err_name e +:+ ": " +:+ err_message e.

(** How a piece of code ends: with a value, or by throwing. *)
Inductive completion (A : Type) :=
| Normal (a : A)
| Throw (e : exn).
Arguments Normal {A} a.
Arguments Throw {A} e.

Inductive actionOptions := Create | Delete | Read | Update.

(** Actions to methods *)
Definition METHODS (action : actionOptions) : string :=
  match action with
  | Create => "POST"
  | Delete => "DELETE"
  | Read => "GET"
  | Update => "PUT"
  end.

(** [{ action, data, url }] *)
Record onRequestingStruct := {
  ing_action : actionOptions;
  ing_data : json;
  ing_url : string
}.

(** [{ action, data, res?, url }]; [rq_res = None] is an absent or
    undefined [res]. *)
Record onRequestedStruct := {
  rq_action : actionOptions;
  rq_data : json;
  rq_res : option json;
  rq_url : string
}.

(** What the code passes to a hook. *)
Inductive arg :=
| ArgStr (s : string)
| ArgJson (j : json)
| ArgRequesting (i : onRequestingStruct)
| ArgRequested (i : onRequestedStruct).

(** A user function: it is called with arguments and returns a value
    ([None] is [undefined]) or throws. *)
Record callback := {
  cb_name : string;
  cb_run : list arg -> completion (option json)
}.

(** A JavaScript value as far as the registry can tell values apart. *)
Inductive value :=
| Undefined
| Data (j : json)
| Func (f : callback).

Definition null : value := Data JNull.

Definition typeof_function (v : value) : bool :=
  match v with
  | Func _ => true
  | _ => false
  end.

Definition truthy_value (v : value) : bool :=
  match v with
  | Undefined => false
  | Data j => truthy j
  | Func _ => true
  end.

(** Truthiness of a [string | null | undefined]. *)
Definition truthy_string (s : option string) : bool :=
  match s with
  | None => false
  | Some s => negb (String.eqb s "")
  end.

(** ** The transport and what is observed of a call *)

Record fetchInit := {
  method : string;
  headers : list (string * string);
  body : option string
}.

(** What [fetch] answered: [response.status], the value of
    [response.headers.get('Content-Type')] ([None] is [null]) and what the
    promise of [response.json()] settles with. *)
Record response := {
  status : Z;
  content_type : option string;
  json_body : completion json
}.

Definition ok (r : response) : bool := (200 <=? status r) && (status r <=? 299).

(** How the promise of [fetch] settles. *)
Inductive settled :=
| Fulfilled (r : response)
| Failed (reason : exn).

Inductive kind := Kerror | KerrorCode | KnoSession | Krequested | Krequesting | Kwarning.

Inductive event :=
| Call (k : kind) (f : callback) (args : list arg)
| Fetch (url : string) (init : fetchInit)
| ResponseJson.

(** The promise [request] returns. *)
Inductive reason :=
| ServiceError (e : json)
| Thrown (e : exn).

Inductive promise :=
| Pending
| Resolved (v : option json)
| Rejected (r : reason).

(** ** A state and exception monad *)

Definition M (S A : Type) : Type := S -> completion A * S.

Definition ret {S A} (a : A) : M S A := fun s => (Normal a, s).

Definition throw {S A} (e : exn) : M S A := fun s => (Throw e, s).

Definition bind {S A B} (m : M S A) (k : A -> M S B) : M S B :=
  fun s =>
    match m s with
    | (Normal a, s') => k a s'
    | (Throw e, s') => (Throw e, s')
    end.

Definition get {S} : M S S := fun s => (Normal s, s).

Definition modify {S} (f : S -> S) : M S unit := fun s => (Normal tt, f s).

(** Runs [m] and hands its completion over instead of propagating it. *)
Definition attempt {S A} (m : M S A) : M S (completion A) :=
  fun s => let (r, s') := m s in (Normal r, s').

Definition lift {S A} (r : completion A) : M S A :=
  match r with
  | Normal a => ret a
  | Throw e => throw e
  end.

Fixpoint for_each {S A} (l : list A) (f : A -> M S unit) : M S unit :=
  match l with
  | [] => ret tt
  | x :: l' => bind (f x) (fun _ => for_each l' f)
  end.

Declare Scope monad_scope.
Delimit Scope monad_scope with monad.
Notation "x <- m ; k" := (bind m (fun x => k))
  (at level 20, m at level 100, k at level 200, only parsing) : monad_scope.
Notation "m ;; k" := (bind m (fun _ => k))
  (at level 100, k at level 200, right associativity, only parsing) : monad_scope.

Local Open Scope monad_scope.

(** ** Operators of the language the code relies on *)

Definition primitive_to_string (j : json) : string :=
  match j with
  | JNull => "null"
  | JBool true => "true"
  | JBool false => "false"
  | JNum n => number_to_string n
  | JStr s => s
  | JArr _ | JObj _ => "[object Object]"
  end.

Definition array_key {A} (key : string) (l : list A) : option nat :=
  find (fun i => String.eqb (number_to_string (Z.of_nat i)) key) (seq 0 (length l)).

(** [key in value]: a [TypeError] unless the right operand is an object. *)
Definition js_in (key : string) (j : json) : completion bool :=
  match j with
  | JObj l => Normal (bool_decide (is_Some (assoc key l)))
  | JArr l => Normal (String.eqb key "length" || bool_decide (is_Some (array_key key l)))
  | _ =>
      Throw (TypeError ("Cannot use 'in' operator to search for '" +:+ key +:+ "' in "
                        +:+ primitive_to_string j))
  end.

(** [value.key] on a parsed value; [None] is [undefined]. *)
Definition js_get (key : string) (j : json) : option json :=
  match j with
  | JObj l => assoc key l
  | JArr l =>
      if String.eqb key "length" then Some (JNum (Z.of_nat (length l)))
      else match array_key key l with
           | Some i => nth_error l i
           | None => None
           end
  | _ => None
  end.

Definition truthy_opt (j : option json) : bool :=
  match j with
  | None => false
  | Some j => truthy j
  end.

(** [value === false] *)
Definition strictly_false (v : option json) : bool :=
  match v with
  | Some (JBool false) => true
  | _ => false
  end.

(** [`${ct}`] for a [string | null]. *)
Definition template_string (s : option string) : string :=
  match s with
  | None => "null"
  | Some s => s
  end.

Definition kind_expr (k : kind) : string :=
  match k with
  | Kerror => "_.error"
  | KerrorCode => "_.errorCode"
  | KnoSession => "_.noSession"
  | Krequested => "this.requested"
  | Krequesting => "this.requesting"
  | Kwarning => "_.warning"
  end.

(** ** The Body class *)

Module Body.

Record t := {
  _domain : string;
  error : value;
  errorCode : value;
  noSession : value;
  requested : value;
  requesting : value;
  token : option string;
  warning : value
}.

(** [new Body()] *)
Definition new : t := {|
  _domain := "localhost";
  error := null;
  errorCode := null;
  noSession := null;
  requested := null;
  requesting := null;
  token := None;
  warning := null
|}.

Definition set_domain (d : string) (b : t) : t :=
  {| _domain := d; error := error b; errorCode := errorCode b; noSession := noSession b;
     requested := requested b; requesting := requesting b; token := token b;
     warning := warning b |}.

Definition set_error (v : value) (b : t) : t :=
  {| _domain := _domain b; error := v; errorCode := errorCode b; noSession := noSession b;
     requested := requested b; requesting := requesting b; token := token b;
     warning := warning b |}.

Definition set_errorCode (v : value) (b : t) : t :=
  {| _domain := _domain b; error := error b; errorCode := v; noSession := noSession b;
     requested := requested b; requesting := requesting b; token := token b;
     warning := warning b |}.

Definition set_noSession (v : value) (b : t) : t :=
  {| _domain := _domain b; error := error b; errorCode := errorCode b; noSession := v;
     requested := requested b; requesting := requesting b; token := token b;
     warning := warning b |}.

Definition set_requested (v : value) (b : t) : t :=
  {| _domain := _domain b; error := error b; errorCode := errorCode b; noSession := noSession b;
     requested := v; requesting := requesting b; token := token b;
     warning := warning b |}.

Definition set_requesting (v : value) (b : t) : t :=
  {| _domain := _domain b; error := error b; errorCode := errorCode b; noSession := noSession b;
     requested := requested b; requesting := v; token := token b;
     warning := warning b |}.

Definition set_token (tok : option string) (b : t) : t :=
  {| _domain := _domain b; error := error b; errorCode := errorCode b; noSession := noSession b;
     requested := requested b; requesting := requesting b; token := tok;
     warning := warning b |}.

Definition set_warning (v : value) (b : t) : t :=
  {| _domain := _domain b; error := error b; errorCode := errorCode b; noSession := noSession b;
     requested := requested b; requesting := requesting b; token := token b;
     warning := v |}.

(** The callback slot of a kind. *)
Definition slot (k : kind) (b : t) : value :=
  match k with
  | Kerror => error b
  | KerrorCode => errorCode b
  | KnoSession => noSession b
  | Krequested => requested b
  | Krequesting => requesting b
  | Kwarning => warning b
  end.

(** What one invocation of [request] works on: the instance ([this]), the
    hook invocations and transport calls so far, the promise it returned
    and its local variable [res]. *)
Record world := {
  this : t;
  trace : list event;
  outcome : promise;
  res : option json
}.

Definition start (b : t) : world :=
  {| this := b; trace := []; outcome := Pending; res := None |}.

Definition emit (e : event) : M world unit :=
  modify (fun w => {| this := this w; trace := trace w ++ [e];
                      outcome := outcome w; res := res w |}).

Definition set_res (r : option json) : M world unit :=
  modify (fun w => {| this := this w; trace := trace w; outcome := outcome w; res := r |}).

(** [resolve(v)] and [reject(r)]: a promise settles once. *)
Definition settle (p : promise) : M world unit :=
  modify (fun w =>
            match outcome w with
            | Pending => {| this := this w; trace := trace w; outcome := p; res := res w |}
            | _ => w
            end).

Definition resolve (v : option json) : M world unit := settle (Resolved v).
Definition reject (r : reason) : M world unit := settle (Rejected r).

(** [v(args)]: the call is observed and completes as the function does;
    calling what is not a function is a [TypeError]. *)
Definition call (k : kind) (v : value) (args : list arg) : M world (option json) :=
  match v with
  | Func f => emit (Call k f args);; lift (cb_run f args)
  | _ => throw (TypeError (kind_expr k +:+ " is not a function"))
  end.

Definition JSON_CONTENT_TYPE : string := "application/json; charset=utf-8".

Section request.

(** What the closures of [request] capture. *)
Variables (action : actionOptions) (data : json) (url : string).

(** Handles an error based on whether an error handler is set *)
Definition handleError (message : string) : M world unit :=
  w <- get;
  if truthy_value (error (this w)) then
    call Kerror (error (this w))
      [ArgStr message;
       ArgRequested {| rq_action := action; rq_data := data; rq_res := None; rq_url := url |}];;
    ret tt
  else throw (Error message).

(** [fetch(url, fetchInit).then(response => ...)] *)
Definition then_response (response : response) : M world (option json) :=
  if ok response then
    let ct := content_type response in
    (if negb (truthy_string ct) || negb (bool_decide (ct = Some JSON_CONTENT_TYPE)) then
       handleError (METHODS action +:+ " " +:+ url +:+ " returned invalid Content-Type: "
                    +:+ template_string ct)
     else ret tt);;
    emit ResponseJson;;
    j <- lift (json_body response);
    ret (Some j)
  else if status response =? 401 then
    w <- get;
    if truthy_value (noSession (this w)) then
      call KnoSession (noSession (this w)) [];;
      ret None
    else
      throw (Error (METHODS action +:+ " " +:+ url +:+ " return 401 NOT AUTHORIZED"))
  else
    handleError (METHODS action +:+ " " +:+ url +:+ " returned invalid status: "
                 +:+ number_to_string (status response));;
    ret None.

(** The [if('error' in result && result.error)] block of the second
    [then]; [true] when it returned from the callback. *)
Definition check_error (result : json) : M world bool :=
  has_error <- lift (js_in "error" result);
  match js_get "error" result with
  | Some e =>
      if has_error && truthy e then
        w <- get;
        if negb (truthy_value (errorCode (this w))) then
          reject (ServiceError e);; ret true
        else
          r <- call KerrorCode (errorCode (this w))
                 [ArgJson e;
                  ArgRequested {| rq_action := action; rq_data := data; rq_res := res w;
                                  rq_url := url |}];
          if strictly_false r then
            reject (ServiceError e);; ret true
          else ret false
      else ret false
  | None => ret false
  end.

Definition check_warning (result : json) : M world unit :=
  has_warning <- lift (js_in "warning" result);
  w <- get;
  match js_get "warning" result with
  | Some warn =>
      if has_warning && truthy warn && truthy_value (warning (this w)) then
        call Kwarning (warning (this w))
          [ArgJson warn;
           ArgRequested {| rq_action := action; rq_data := data; rq_res := res w;
                           rq_url := url |}];;
        ret tt
      else ret tt
  | None => ret tt
  end.

(** [.then(result => ...)] *)
Definition then_result (result : option json) : M world unit :=
  if negb (truthy_opt result) then ret tt
  else
    set_res result;;
    match result with
    | Some result =>
        returned <- check_error result;
        if returned then ret tt
        else
          check_warning result;;
          has_data <- lift (js_in "data" result);
          if has_data then resolve (js_get "data" result) else ret tt
    | None => ret tt
    end.

(** [.catch(reason => ...)] *)
Definition catch_reason (reason : exn) : M world unit :=
  handleError (METHODS action +:+ " " +:+ url +:+ " failed because of " +:+ dquote
               +:+ exn_to_string reason +:+ dquote).

(** [.finally(() => ...)] *)
Definition finally_ : M world unit :=
  w <- get;
  if truthy_value (requested (this w)) then
    call Krequested (requested (this w))
      [ArgRequested {| rq_action := action; rq_data := data; rq_res := res w; rq_url := url |}];;
    ret tt
  else ret tt.

(** [fetch(...).then(...).then(...).catch(...)], once the promise of
    [fetch] has settled as [net]: how the promise that [catch] returns
    settles. *)
Definition caught (net : settled) : M world (completion unit) :=
  r1 <- attempt (match net with
                 | Fulfilled response => then_response response
                 | Failed reason => throw reason
                 end);
  r2 <- attempt (match r1 with
                 | Normal result => then_result result
                 | Throw e => throw e
                 end);
  attempt (match r2 with
           | Normal _ => ret tt
           | Throw e => catch_reason e
           end).

(** The whole chain, [finally] included. It completes with [Throw e] when
    its last promise is rejected with [e]: no handler follows it. *)
Definition chain (net : settled) : M world unit :=
  r3 <- caught net;
  r4 <- attempt finally_;
  match r4 with
  | Normal _ => lift r3
  | Throw e => throw e
  end.

(** The executor of [new Promise(...)] up to the call of [fetch]. *)
Definition executor (json : option string) : M world unit :=
  w <- get;
  let fetchInit := {|
    method := METHODS action;
    headers := ("Content-Type", JSON_CONTENT_TYPE)
               :: match token (this w) with
                  | Some tok => if truthy_string (Some tok) then [("Authorization", tok)] else []
                  | None => []
                  end;
    body := if truthy_string json then json else None
  |} in
  (if truthy_value (requesting (this w)) then
     call Krequesting (requesting (this w))
       [ArgRequesting {| ing_action := action; ing_data := data; ing_url := url |}];;
     ret tt
   else ret tt);;
  emit (Fetch url fetchInit).

End request.

(** [request(action, service, noun, data)], with the way the promise of
    [fetch] settles as [net]. The payload [data] is JSON safe data, [JNull]
    being the [null] that [create], [read], [update] and [delete] pass for
    an absent payload. The result is [Throw e] when the chain ends in a
    rejection that nothing handles; the promise handed to the caller is
    the [outcome] of the final world. *)
Definition request (action : actionOptions) (service noun : string) (data : json)
    (net : settled) : M world unit :=
  w <- get;
  let url := "https://" +:+ _domain (this w) +:+ "/" +:+ service +:+ "/" +:+ noun in
  let '(url, json) :=
    match data with
    | JNull => (url, None)
    | _ =>
        match action with
        | Read => (url +:+ "?d=" +:+ encodeURIComponent (stringify data), None)
        | _ => (url, Some (stringify data))
        end
    end in
  started <- attempt (executor action data url json);
  match started with
  | Normal _ => chain action data url net
  | Throw e => reject (Thrown e)
  end.

Definition create (service noun : string) (data : json) (net : settled) : M world unit :=
  request Create service noun data net.

Definition delete (service noun : string) (data : json) (net : settled) : M world unit :=
  request Delete service noun data net.

Definition read (service noun : string) (data : json) (net : settled) : M world unit :=
  request Read service noun data net.

Definition update (service noun : string) (data : json) (net : settled) : M world unit :=
  request Update service noun data net.

(** [callbacks.key] *)
Definition property (callbacks : gmap string value) (key : string) : value :=
  default Undefined (callbacks !! key).

Definition Object_keys (callbacks : gmap string value) : list string :=
  (map_to_list callbacks).*1.

(** The [switch(event)] of [on]. *)
Definition on_event (callbacks : gmap string value) (event : string) : M t unit :=
  if String.eqb event "error" then modify (set_error (property callbacks "error"))
  else if String.eqb event "errorCode" then
    modify (set_errorCode (property callbacks "errorCode"))
  else if String.eqb event "noSession" then
    modify (set_noSession (property callbacks "noSession"))
  else if String.eqb event "requested" then
    modify (set_requested (property callbacks "requested"))
  else if String.eqb event "requesting" then
    modify (set_requesting (property callbacks "requesting"))
  else if String.eqb event "warning" then modify (set_warning (property callbacks "warning"))
  else ret tt.

(** Called to set multiple events at once *)
Definition on (callbacks : gmap string value) : M t unit :=
  for_each (Object_keys callbacks) (on_event callbacks).

Definition onError (callback : value) : M t unit :=
  if negb (typeof_function callback) then
    throw (Error "onError() called with an invalid callback")
  else modify (set_error callback).

Definition onErrorCode (callback : value) : M t unit :=
  if negb (typeof_function callback) then
    throw (Error "onErrorCode() called with an invalid callback")
  else modify (set_errorCode callback).

Definition onNoSession (callback : value) : M t unit :=
  if negb (typeof_function callback) then
    throw (Error "onNoSession() called with an invalid callback")
  else modify (set_noSession callback).

Definition onRequested (callback : value) : M t unit :=
  if negb (typeof_function callback) then
    throw (Error "onRequested() called with an invalid callback")
  else modify (set_requested callback).

Definition onRequesting (callback : value) : M t unit :=
  if negb (typeof_function callback) then
    throw (Error "onRequesting() called with an invalid callback")
  else modify (set_requesting callback).

Definition onWarning (callback : value) : M t unit :=
  if negb (typeof_function callback) then
    throw (Error "onWarning() called with an invalid callback")
  else modify (set_warning callback).

(** The single-kind registration of a kind. *)
Definition register (k : kind) : value -> M t unit :=
  match k with
  | Kerror => onError
  | KerrorCode => onErrorCode
  | KnoSession => onNoSession
  | Krequested => onRequested
  | Krequesting => onRequesting
  | Kwarning => onWarning
  end.

(** The key of a kind in the argument of [on]. *)
Definition key (k : kind) : string :=
  match k with
  | Kerror => "error"
  | KerrorCode => "errorCode"
  | KnoSession => "noSession"
  | Krequested => "requested"
  | Krequesting => "requesting"
  | Kwarning => "warning"
  end.

(** [domain(domain?)]: [None] is the call without argument; the getter
    returns the domain, the setter returns [undefined] ([None]). *)
Definition domain (domain : option string) : M t (option string) :=
  match domain with
  | None => b <- get; ret (Some (_domain b))
  | Some d => modify (set_domain d);; ret None
  end.

(** [session(token?)]: the argument is [undefined] ([None]), [null]
    ([Some None]) or a string; the getter returns the token. *)
Definition session (token' : option (option string)) : M t (option (option string)) :=
  match token' with
  | None => b <- get; ret (Some (token b))
  | Some tok => modify (set_token tok);; ret None
  end.

End Body.

(** ** Reading off a finished call *)

(** The world a call of [request] on instance [b] leaves behind. *)
Definition final (b : Body.t) (action : actionOptions) (service noun : string) (data : json)
    (net : settled) : Body.world :=
  snd (Body.request action service noun data net (Body.start b)).

(** The error, if any, that escaped the call unhandled. *)
Definition escaped (b : Body.t) (action : actionOptions) (service noun : string) (data : json)
    (net : settled) : completion unit :=
  fst (Body.request action service noun data net (Body.start b)).

(** The instance after an operation on it, whether it threw or not. *)
Definition after {A} (m : M Body.t A) (b : Body.t) : Body.t := snd (m b).

Definition kind_eqb (k1 k2 : kind) : bool :=
  match k1, k2 with
  | Kerror, Kerror | KerrorCode, KerrorCode | KnoSession, KnoSession
  | Krequested, Krequested | Krequesting, Krequesting | Kwarning, Kwarning => true
  | _, _ => false
  end.

(** An invocation of the hook of kind [k]. *)
Definition is_call (k : kind) (e : event) : bool :=
  match e with
  | Call k' _ _ => kind_eqb k' k
  | _ => false
  end.

(** The requests handed to [fetch]. *)
Definition fetched (tr : list event) : list (string * fetchInit) :=
  omap (fun e => match e with Fetch u i => Some (u, i) | _ => None end) tr.

Definition header (name : string) (init : fetchInit) : option string :=
  snd <$> find (fun h => String.eqb (fst h) name) (headers init).

(** ** Vocabulary of the properties *)

(** Since the trace was [pre], the call has kept working on instance [b]
    and every event it has recorded satisfies [P]. *)
Definition Inv (P : event -> Prop) (b : Body.t) (pre : list event) (w : Body.world) : Prop :=
  Body.this w = b /\ exists suf, Body.trace w = pre ++ suf /\ Forall P suf.

(** The hooks the chain calls before its [finally]. *)
Definition chain_kind (k : kind) : bool :=
  match k with
  | Kerror | KerrorCode | KnoSession | Kwarning => true
  | Krequested | Krequesting => false
  end.

(** What the chain records before its [finally]: the reading of the
    response, and invocations of the function that instance [b] holds in
    the slot of the kind. *)
Definition chain_event (b : Body.t) (e : event) : Prop :=
  match e with
  | Call k f _ => chain_kind k = true /\ Body.slot k b = Func f
  | Fetch _ _ => False
  | ResponseJson => True
  end.

Definition is_fetch (e : event) : bool :=
  match e with
  | Fetch _ _ => true
  | _ => false
  end.

Definition dispatched (tr : list event) : bool := existsb is_fetch tr.

(** The [fetchInit] the executor builds on instance [b] for body [json]. *)
Definition init_of (b : Body.t) (action : actionOptions) (json : option string) : fetchInit :=
  {| method := METHODS action;
     headers := ("Content-Type", Body.JSON_CONTENT_TYPE)
                :: match Body.token b with
                   | Some tok => if truthy_string (Some tok) then [("Authorization", tok)] else []
                   | None => []
                   end;
     body := if truthy_string json then json else None |}.

Definition base_url (b : Body.t) (service noun : string) : string :=
  "https://" +:+ Body._domain b +:+ "/" +:+ service +:+ "/" +:+ noun.

Abbreviation world_at b tr p r :=
  {| Body.this := b; Body.trace := tr; Body.outcome := p; Body.res := r |}.

(** What [finally] hands to the after-request hook in world [w]. *)
Definition requested_args (action : actionOptions) (data : json) (url : string)
    (w : Body.world) : list arg :=
  [ArgRequested {| rq_action := action; rq_data := data; rq_res := Body.res w;
                   rq_url := url |}].

(** The events [finally] records in world [w]. *)
Definition finally_events (action : actionOptions) (data : json) (url : string)
    (w : Body.world) : list event :=
  match Body.requested (Body.this w) with
  | Func f => [Call Krequested f (requested_args action data url w)]
  | _ => []
  end.

(** Every hook invocation recorded is an invocation of the function that
    instance [b] holds in the slot of that kind. *)
Definition from_slot (b : Body.t) (e : event) : Prop :=
  match e with
  | Call k f _ => Body.slot k b = Func f
  | _ => True
  end.

(** What the executor records before it calls [fetch]: the invocation of
    the before-request hook of [b]. *)
Definition requesting_event (b : Body.t) (e : event) : Prop :=
  match e with
  | Call Krequesting f _ => Body.requesting b = Func f
  | _ => False
  end.

(** What [handleError] hands to the error hook. *)
Definition error_args (action : actionOptions) (data : json) (url message : string) :
    list arg :=
  [ArgStr message;
   ArgRequested {| rq_action := action; rq_data := data; rq_res := None; rq_url := url |}].

(** What the second [then] hands to the error-code and warning hooks for
    the field [v] of envelope [result]. *)
Definition envelope_args (action : actionOptions) (data : json) (url : string)
    (result v : json) : list arg :=
  [ArgJson v;
   ArgRequested {| rq_action := action; rq_data := data; rq_res := Some result;
                   rq_url := url |}].

(** A slot that is empty, or holds a function that never throws. *)
Definition quiet (v : value) : Prop :=
  match v with
  | Func f => forall args, exists r, cb_run f args = Normal r
  | _ => truthy_value v = false
  end.

(** The message of the error thrown on a 401 when no no-session hook is
    registered, and the message the [catch] of the chain makes of an error. *)
Definition unauthorized_message (action : actionOptions) (url : string) : string :=
  METHODS action +:+ " " +:+ url +:+ " return 401 NOT AUTHORIZED".

Definition failed_message (action : actionOptions) (url : string) (reason : exn) : string :=
  METHODS action +:+ " " +:+ url +:+ " failed because of " +:+ dquote
  +:+ exn_to_string reason +:+ dquote.

Definition content_type_message (action : actionOptions) (url : string)
    (ct : option string) : string :=
  METHODS action +:+ " " +:+ url +:+ " returned invalid Content-Type: " +:+ template_string ct.

(** What a call records up to and including its call of [fetch]. *)
Definition before_chain (b : Body.t) (e : event) : Prop :=
  requesting_event b e \/ is_fetch e = true.

(** The test of the content type in the first [then]. *)
Definition invalid_content_type (ct : option string) : bool :=
  negb (truthy_string ct) || negb (bool_decide (ct = Some Body.JSON_CONTENT_TYPE)).

(** ** JSON text and percent-encoding, as the standards describe them *)

(** RFC 8259, section 7: a character that may stand for itself between
    the quotation marks of a string. *)
Definition unescaped (c : ascii) : bool :=
  let n := nat_of_ascii c in
  ((32 <=? n) && negb (n =? 34) && negb (n =? 92))%nat.

(** The value of a hexadecimal digit of either case. *)
Definition hex_value (c : ascii) : option nat :=
  let n := nat_of_ascii c in
  if ((48 <=? n) && (n <=? 57))%nat then Some (n - 48)%nat
  else if ((65 <=? n) && (n <=? 70))%nat then Some (n - 55)%nat
  else if ((97 <=? n) && (n <=? 102))%nat then Some (n - 87)%nat
  else None.

(** RFC 8259, section 7: [e] after a reverse solidus stands for the
    character [c]: one of the two-character escapes, or [uXXXX] with the
    code point of [c] (a string being its UTF-8 text, these are the code
    points below 128). *)
Definition escape_sequence (c : ascii) (e : string) : Prop :=
  (c = ascii_of_nat 34 /\ e = dquote)
  \/ (c = ascii_of_nat 92 /\ e = backslash)
  \/ (c = "/"%char /\ e = "/")
  \/ (c = ascii_of_nat 8 /\ e = "b")
  \/ (c = ascii_of_nat 12 /\ e = "f")
  \/ (c = ascii_of_nat 10 /\ e = "n")
  \/ (c = ascii_of_nat 13 /\ e = "r")
  \/ (c = ascii_of_nat 9 /\ e = "t")
  \/ (exists h1 h2 h3 h4 v1 v2 v3 v4,
        e = String "u" (String h1 (String h2 (String h3 (String h4 EmptyString))))
        /\ hex_value h1 = Some v1 /\ hex_value h2 = Some v2
        /\ hex_value h3 = Some v3 /\ hex_value h4 = Some v4
        /\ nat_of_ascii c = (4096 * v1 + 256 * v2 + 16 * v3 + v4)%nat
        /\ (nat_of_ascii c < 128)%nat).

(** [string_text s t]: [t], put between quotation marks, is a JSON string
    that denotes [s]. *)
Inductive string_text : string -> string -> Prop :=
| string_text_end : string_text EmptyString EmptyString
| string_text_plain c s t :
    unescaped c = true -> string_text s t -> string_text (String c s) (String c t)
| string_text_escape c e s t :
    escape_sequence c e -> string_text s t ->
    string_text (String c s) (backslash +:+ e +:+ t).

(** [JSON_text j t]: [t] is a JSON text (RFC 8259, without insignificant
    whitespace) that denotes the value [j]. A number is written the way
    SerializeJSONProperty writes it: as Number::toString does when it is
    finite, and as [null] otherwise. *)
Inductive JSON_text : json -> string -> Prop :=
| text_null : JSON_text JNull "null"
| text_true : JSON_text (JBool true) "true"
| text_false : JSON_text (JBool false) "false"
| text_number x :
    JSON_text (JNum x) (if is_finite x then number_to_string x else "null")
| text_string s t :
    string_text s t -> JSON_text (JStr s) (dquote +:+ t +:+ dquote)
| text_array l t :
    elements_text l t -> JSON_text (JArr l) ("[" +:+ t +:+ "]")
| text_object l t :
    members_text l t -> JSON_text (JObj l) ("{" +:+ t +:+ "}")
with elements_text : list json -> string -> Prop :=
| elements_none : elements_text [] EmptyString
| elements_last j t : JSON_text j t -> elements_text [j] t
| elements_more j t j' l ts :
    JSON_text j t -> elements_text (j' :: l) ts ->
    elements_text (j :: j' :: l) (t +:+ "," +:+ ts)
with members_text : list (string * json) -> string -> Prop :=
| members_none : members_text [] EmptyString
| members_last k kt j t :
    string_text k kt -> JSON_text j t ->
    members_text [(k, j)] (dquote +:+ kt +:+ dquote +:+ ":" +:+ t)
| members_more k kt j t m l ts :
    string_text k kt -> JSON_text j t -> members_text (m :: l) ts ->
    members_text ((k, j) :: m :: l) (dquote +:+ kt +:+ dquote +:+ ":" +:+ t +:+ "," +:+ ts).

(** RFC 3986, section 2.1: the text a percent-encoded one stands for;
    [None] when a [%] is not followed by two hexadecimal digits. *)
Fixpoint percent_decode (s : string) : option string :=
  match s with
  | EmptyString => Some EmptyString
  | String c s1 =>
      if Ascii.eqb c "%" then
        match s1 with
        | String h (String l s2) =>
            match hex_value h, hex_value l, percent_decode s2 with
            | Some a, Some b, Some t => Some (String (ascii_of_nat (16 * a + b)) t)
            | _, _, _ => None
            end
        | _ => None
        end
      else
        match percent_decode s1 with
        | Some t => Some (String c t)
        | None => None
        end
  end.

(** The characters that delimit the parts of a URL and the parameters
    of its query. *)
Definition url_delimiter (c : ascii) : bool :=
  Ascii.eqb c "&" || Ascii.eqb c "=" || Ascii.eqb c "#" || Ascii.eqb c "?"
  || Ascii.eqb c "+" || Ascii.eqb c "/" || Ascii.eqb c " ".

Fixpoint string_forall (p : ascii -> bool) (s : string) : bool :=
  match s with
  | EmptyString => true
  | String c s' => p c && string_forall p s'
  end.

(** ** Sample hooks, instances and responses *)

(** A hook that completes the same way whatever it is given. *)
Definition sample_hook (name : string) (result : completion (option json)) : callback :=
  {| cb_name := name; cb_run := fun _ => result |}.

Definition returns_undefined : callback := sample_hook "returns undefined" (Normal None).

Definition returns_false : callback :=
  sample_hook "returns false" (Normal (Some (JBool false))).

(** A 200 response with the JSON content type whose body parses to [j]. *)
Definition json_response (j : json) : response :=
  {| status := 200; content_type := Some Body.JSON_CONTENT_TYPE; json_body := Normal j |}.

(** A response without content type whose body parses to [j]. *)
Definition bare_response (code : Z) (j : json) : response :=
  {| status := code; content_type := None; json_body := Normal j |}.

Definition bad_field : json := JObj [("code", JNum 1001); ("msg", JStr "bad field")].

Definition sample_url : string := "https://localhost/svc/noun".

Definition sample_init : fetchInit :=
  {| method := "GET"; headers := [("Content-Type", Body.JSON_CONTENT_TYPE)]; body := None |}.

(** A hook that throws [e] whatever it is given. *)
Definition raises (e : exn) : callback := sample_hook "raises" (Throw e).

(** A payload whose string holds a quotation mark, a reverse solidus, a
    line feed, a space and a two-byte character (bytes C3 A9), and whose
    array holds a fraction, a negative integer, Numbers that print with an
    exponent or with leading zeros, an integer beyond 2^53, a literal too
    large for a finite Number, [true] and [null]. *)
Definition sample_payload : json :=
  JObj [("q", JStr ("a" +:+ dquote +:+ "b" +:+ backslash +:+ "c"
                    +:+ String (ascii_of_nat 10)
                          (String " " (String (ascii_of_nat 195)
                                         (String (ascii_of_nat 169) EmptyString)))));
        ("n", JArr [JNum (literal false 15 (-1)); JNum (-12); JNum (literal false 1 21);
                    JNum (literal false 1 (-3)); JNum (literal false 15 (-8));
                    JNum 9007199254740993; JNum (literal false 1 400);
                    JBool true; JNull])].

(** The percent-encoded JSON text of [sample_payload]. *)
Definition sample_query : string :=
  "%7B%22q%22%3A%22a%5C%22b%5C%5Cc%5Cn%20%C3%A9%22%2C"
  +:+ "%22n%22%3A%5B1.5%2C-12%2C1e%2B21%2C0.001%2C1.5e-7%2C9007199254740992%2C"
  +:+ "null%2Ctrue%2Cnull%5D%7D".

(** * Properties *)

(** ** The encoders on the examples of the specification *)

Example stringify_id_abc :
  stringify (JObj [("id", JStr "abc")])
  = "{" +:+ dquote +:+ "id" +:+ dquote +:+ ":" +:+ dquote +:+ "abc" +:+ dquote +:+ "}".
Proof. reflexivity. Qed.

Example encode_id_abc :
  encodeURIComponent (stringify (JObj [("id", JStr "abc")])) = "%7B%22id%22%3A%22abc%22%7D".
Proof. reflexivity. Qed.

Example stringify_nested :
  stringify (JArr [JNum (-12); JNull; JBool true; JArr []; JObj []]) = "[-12,null,true,[],{}]".
Proof. reflexivity. Qed.

Example stringify_escapes :
  stringify (JStr ("a" +:+ dquote +:+ "b" +:+ String (ascii_of_nat 10) "c"))
  = dquote +:+ "a" +:+ backslash +:+ dquote +:+ "b" +:+ backslash +:+ "nc" +:+ dquote.
Proof. reflexivity. Qed.

Example data_42_resolves :
  Body.outcome (final Body.new Read "svc" "noun" JNull
                  (Fulfilled (json_response (JObj [("data", JNum 42)]))))
  = Resolved (Some (JNum 42)).
Proof. reflexivity. Qed.

Example error_without_hook_rejects :
  Body.outcome (final Body.new Read "svc" "noun" JNull
                  (Fulfilled (json_response (JObj [("error", bad_field)]))))
  = Rejected (ServiceError bad_field).
Proof. reflexivity. Qed.

(** ** Invariants of monadic code *)

Section invariant.
Context {S : Type} (I : S -> Prop).

Lemma bind_get {B} (k : S -> M S B) s : bind get k s = k s s.
Proof. reflexivity. Qed.

Lemma bind_attempt {A B} (m : M S A) (k : completion A -> M S B) s :
  bind (attempt m) k s = k (fst (m s)) (snd (m s)).
Proof. unfold bind, attempt. by destruct (m s). Qed.

Lemma inv_lift {A} (r : completion A) s : I s -> I (snd (lift r s)).
Proof. by destruct r. Qed.

Lemma inv_bind {A B} (m : M S A) (k : A -> M S B) s :
  I (snd (m s)) -> (forall a s', I s' -> I (snd (k a s'))) -> I (snd (bind m k s)).
Proof.
  intros Hm Hk. unfold bind.
  destruct (m s) as [[a|e] s']; simpl in *; [by apply Hk | done].
Qed.

Lemma inv_attempt {A} (m : M S A) s : I (snd (m s)) -> I (snd (attempt m s)).
Proof. unfold attempt. by destruct (m s). Qed.

End invariant.

(** ** The instance and the trace during a call *)

Ltac inv_step :=
  lazymatch goal with
  | |- Inv _ _ _ (snd (bind get _ _)) => rewrite bind_get
  | |- Inv _ _ _ (snd (bind _ _ _)) => apply inv_bind; [| intros ? ? ?]
  | |- Inv _ _ _ (snd (ret _ _)) => assumption
  | |- Inv _ _ _ (snd (throw _ _)) => assumption
  | |- Inv _ _ _ (snd (lift _ _)) => apply inv_lift; assumption
  | |- Inv _ _ _ (snd (attempt _ _)) => apply inv_attempt
  | |- Inv _ _ _ (snd ((if ?c then _ else _) _)) => destruct c
  | |- Inv _ _ _ (snd ((match ?c with _ => _ end) _)) => destruct c
  end.

Section Inv.
Variables (b : Body.t) (pre : list event).

Lemma Inv_emit P e w : P e -> Inv P b pre w -> Inv P b pre (snd (Body.emit e w)).
Proof.
  intros He (Hb & suf & Htr & Hsuf). split; [done |].
  exists (suf ++ [e]). simpl. rewrite Htr, app_assoc. split; [done |].
  apply Forall_app. split; [done | by constructor].
Qed.

Lemma Inv_set_res P r w : Inv P b pre w -> Inv P b pre (snd (Body.set_res r w)).
Proof. by intros [Hb Htr]. Qed.

Lemma Inv_settle P p w : Inv P b pre w -> Inv P b pre (snd (Body.settle p w)).
Proof.
  intros [Hb Htr]. unfold Body.settle, modify. simpl. by destruct (Body.outcome w).
Qed.

Lemma Inv_call k args w :
  chain_kind k = true ->
  Inv (chain_event b) b pre w ->
  Inv (chain_event b) b pre (snd (Body.call k (Body.slot k (Body.this w)) args w)).
Proof.
  intros Hk Hw. pose proof Hw as [Hb Htr]. rewrite Hb.
  unfold Body.call. destruct (Body.slot k b) eqn:Hslot; try done.
  apply inv_bind; [by apply Inv_emit | intros; by apply inv_lift].
Qed.

Ltac inv_world :=
  lazymatch goal with
  | |- Inv _ _ _ (snd (Body.set_res _ _)) => apply Inv_set_res; assumption
  | |- Inv _ _ _ (snd (Body.resolve _ _)) => apply Inv_settle; assumption
  | |- Inv _ _ _ (snd (Body.reject _ _)) => apply Inv_settle; assumption
  | |- Inv _ _ _ (snd (Body.emit _ _)) => apply Inv_emit; [exact Logic.I | assumption]
  | |- Inv _ _ _ (snd (Body.call ?k _ _ _)) => apply (Inv_call k); [reflexivity | assumption]
  | _ => inv_step
  end.

Lemma Inv_handleError action data url message w :
  Inv (chain_event b) b pre w ->
  Inv (chain_event b) b pre (snd (Body.handleError action data url message w)).
Proof. intros Hw. unfold Body.handleError. repeat inv_world. Qed.

Lemma Inv_then_response action data url r w :
  Inv (chain_event b) b pre w ->
  Inv (chain_event b) b pre (snd (Body.then_response action data url r w)).
Proof.
  intros Hw. unfold Body.then_response.
  repeat first [ apply Inv_handleError; assumption | inv_world ].
Qed.

Lemma Inv_check_error action data url result w :
  Inv (chain_event b) b pre w ->
  Inv (chain_event b) b pre (snd (Body.check_error action data url result w)).
Proof. intros Hw. unfold Body.check_error. repeat inv_world. Qed.

Lemma Inv_check_warning action data url result w :
  Inv (chain_event b) b pre w ->
  Inv (chain_event b) b pre (snd (Body.check_warning action data url result w)).
Proof. intros Hw. unfold Body.check_warning. repeat inv_world. Qed.

Lemma Inv_then_result action data url result w :
  Inv (chain_event b) b pre w ->
  Inv (chain_event b) b pre (snd (Body.then_result action data url result w)).
Proof.
  intros Hw. unfold Body.then_result.
  repeat first [ apply Inv_check_error; assumption | apply Inv_check_warning; assumption
               | inv_world ].
Qed.

Lemma Inv_caught action data url net w :
  Inv (chain_event b) b pre w ->
  Inv (chain_event b) b pre (snd (Body.caught action data url net w)).
Proof.
  intros Hw. unfold Body.caught, Body.catch_reason.
  repeat first [ apply Inv_then_response; assumption | apply Inv_then_result; assumption
               | apply Inv_handleError; assumption | inv_world ].
Qed.

End Inv.

(** ** The shape of a call *)

#[local] Arguments String.append : simpl never.

Lemma executor_start b action data url json :
  (exists pre,
      Body.executor action data url json (Body.start b)
      = (Normal tt, world_at b (pre ++ [Fetch url (init_of b action json)]) Pending None)
      /\ dispatched pre = false
      /\ Forall (requesting_event b) pre)
  \/ (exists e pre,
      Body.executor action data url json (Body.start b)
      = (Throw e, world_at b pre Pending None)
      /\ dispatched pre = false
      /\ Forall (requesting_event b) pre).
Proof.
  unfold Body.executor. rewrite bind_get. simpl Body.this. simpl Body.token.
  fold (init_of b action json).
  destruct (truthy_value (Body.requesting b)) eqn:Ht.
  - destruct (Body.requesting b) as [|j|f] eqn:Hreq; simpl.
    + done.
    + right. eexists _, []. split; [reflexivity | split; [done | constructor]].
    + unfold bind, lift. simpl.
      destruct (cb_run f _) as [r|e]; simpl.
      * left. eexists [_]. split; [reflexivity | split; [done |]].
        constructor; [exact Hreq | constructor].
      * right. eexists _, [_]. split; [reflexivity | split; [done |]].
        constructor; [exact Hreq | constructor].
  - left. exists []. split; [done | split; [done | constructor]].
Qed.

Lemma request_shape b action service noun data net :
  exists url json,
    ((data = JNull /\ url = base_url b service noun /\ json = None)
     \/ (data <> JNull /\ action = Read
         /\ url = base_url b service noun +:+ "?d=" +:+ encodeURIComponent (stringify data)
         /\ json = None)
     \/ (data <> JNull /\ action <> Read /\ url = base_url b service noun
         /\ json = Some (stringify data)))
    /\ ((exists pre,
           Body.request action service noun data net (Body.start b)
           = Body.chain action data url net
               (world_at b (pre ++ [Fetch url (init_of b action json)]) Pending None)
           /\ dispatched pre = false
           /\ Forall (requesting_event b) pre)
        \/ (exists e pre,
              Body.request action service noun data net (Body.start b)
              = (Normal tt, world_at b pre (Rejected (Thrown e)) None)
              /\ dispatched pre = false
              /\ Forall (requesting_event b) pre)).
Proof.
  assert (Hgen : forall url json,
    (exists pre,
        bind (attempt (Body.executor action data url json))
          (fun started => match started with
                          | Normal _ => Body.chain action data url net
                          | Throw e => Body.reject (Thrown e)
                          end) (Body.start b)
        = Body.chain action data url net
            (world_at b (pre ++ [Fetch url (init_of b action json)]) Pending None)
        /\ dispatched pre = false
        /\ Forall (requesting_event b) pre)
    \/ (exists e pre,
          bind (attempt (Body.executor action data url json))
            (fun started => match started with
                            | Normal _ => Body.chain action data url net
                            | Throw e => Body.reject (Thrown e)
                            end) (Body.start b)
          = (Normal tt, world_at b pre (Rejected (Thrown e)) None)
          /\ dispatched pre = false
          /\ Forall (requesting_event b) pre)).
  { intros url json. rewrite !bind_attempt.
    destruct (executor_start b action data url json)
      as [(pre & -> & Hpre & Hall)|(e & pre & -> & Hpre & Hall)].
    - left. exists pre. split; [reflexivity | done].
    - right. exists e, pre. split; [reflexivity | done]. }
  unfold Body.request. rewrite bind_get. simpl Body.this. fold (base_url b service noun).
  destruct data; [exists (base_url b service noun), None; split; [by left | apply Hgen] | ..];
    (destruct action;
     [ eexists _, _; split; [right; right; by repeat split | apply Hgen]
     | eexists _, _; split; [right; right; by repeat split | apply Hgen]
     | eexists _, _; split; [right; left; by repeat split | apply Hgen]
     | eexists _, _; split; [right; right; by repeat split | apply Hgen] ]).
Qed.

(** ** The chain *)

Lemma finally_spec action data url w :
  snd (Body.finally_ action data url w)
  = world_at (Body.this w) (Body.trace w ++ finally_events action data url w)
      (Body.outcome w) (Body.res w).
Proof.
  unfold Body.finally_, finally_events. rewrite bind_get. destruct w as [b tr p r]. simpl.
  destruct (Body.requested b) as [|j|f]; simpl.
  - by rewrite app_nil_r.
  - rewrite app_nil_r. by destruct (truthy j).
  - unfold bind, lift. simpl. by destruct (cb_run f _).
Qed.

Lemma caught_normal action data url net w :
  exists r3, fst (Body.caught action data url net w) = Normal r3.
Proof.
  unfold Body.caught. rewrite !bind_attempt. unfold attempt.
  match goal with |- context [let (_, _) := ?m in _] => destruct m end.
  by eexists.
Qed.

Lemma chain_unfold action data url net w :
  Body.chain action data url net w
  = let w3 := snd (Body.caught action data url net w) in
    (match fst (Body.finally_ action data url w3) with
     | Normal _ =>
         match fst (Body.caught action data url net w) with
         | Normal r3 => r3
         | Throw e => Throw e
         end
     | Throw e => Throw e
     end,
     snd (Body.finally_ action data url w3)).
Proof.
  unfold Body.chain. unfold bind at 1.
  destruct (caught_normal action data url net w) as [r3 Hr3].
  destruct (Body.caught action data url net w) as [r w3]. simpl in *. subst r.
  rewrite bind_attempt.
  destruct (Body.finally_ action data url w3) as [[[]|e] w4]; simpl; [| done].
  by destruct r3 as [[]|e].
Qed.

(** Where a dispatched call leaves its world: the worlds after [caught]
    and after [finally] differ by the events of [finally] only. *)
Lemma chain_world action data url net w :
  let w3 := snd (Body.caught action data url net w) in
  snd (Body.chain action data url net w)
  = world_at (Body.this w3) (Body.trace w3 ++ finally_events action data url w3)
      (Body.outcome w3) (Body.res w3).
Proof. rewrite chain_unfold. simpl. apply finally_spec. Qed.

Lemma Forall_finally_events b action data url w :
  Body.this w = b -> Forall (from_slot b) (finally_events action data url w).
Proof.
  intros <-. unfold finally_events.
  destruct (Body.requested (Body.this w)) eqn:E; by repeat constructor.
Qed.

Lemma chain_event_from_slot b e : chain_event b e -> from_slot b e.
Proof. destruct e; simpl; tauto. Qed.

Lemma requesting_event_from_slot b e : requesting_event b e -> from_slot b e.
Proof. destruct e as [[] f args| |]; simpl; tauto. Qed.

Lemma dispatched_app tr1 tr2 : dispatched (tr1 ++ tr2) = dispatched tr1 || dispatched tr2.
Proof. apply existsb_app. Qed.

Lemma chain_event_not_fetch b suf : Forall (chain_event b) suf -> dispatched suf = false.
Proof.
  induction 1 as [|e suf He _ IH]; [done |]. simpl. rewrite IH. by destruct e.
Qed.

Lemma finally_events_not_fetch action data url w :
  dispatched (finally_events action data url w) = false.
Proof. unfold finally_events. by destruct (Body.requested _). Qed.

(** The two ways a call of [request] goes. Either the before-request hook
    throws, [fetch] is never called and the promise is rejected with what
    was thrown; or [fetch] is called with the request built, and the world
    is the one the chain leaves. *)
Lemma request_cases b action service noun data net :
  exists url json pre,
    ((data = JNull /\ url = base_url b service noun /\ json = None)
     \/ (data <> JNull /\ action = Read
         /\ url = base_url b service noun +:+ "?d=" +:+ encodeURIComponent (stringify data)
         /\ json = None)
     \/ (data <> JNull /\ action <> Read /\ url = base_url b service noun
         /\ json = Some (stringify data)))
    /\ dispatched pre = false
    /\ Forall (requesting_event b) pre
    /\ ((exists suf,
           let w1 := world_at b (pre ++ [Fetch url (init_of b action json)]) Pending None in
           let w3 := snd (Body.caught action data url net w1) in
           Body.request action service noun data net (Body.start b)
           = Body.chain action data url net w1
           /\ Body.this w3 = b
           /\ Body.trace w3 = pre ++ [Fetch url (init_of b action json)] ++ suf
           /\ Forall (chain_event b) suf
           /\ final b action service noun data net
              = world_at b (Body.trace w3 ++ finally_events action data url w3)
                  (Body.outcome w3) (Body.res w3))
        \/ (exists e,
              Body.request action service noun data net (Body.start b)
              = (Normal tt, world_at b pre (Rejected (Thrown e)) None))).
Proof.
  destruct (request_shape b action service noun data net)
    as (url & json & Htarget & [(pre & Hreq & Hpre & Hall)|(e & pre & Hreq & Hpre & Hall)]).
  - exists url, json, pre. split; [done | split; [done | split; [done | left]]].
    destruct (Inv_caught b (pre ++ [Fetch url (init_of b action json)]) action data url net
                (world_at b (pre ++ [Fetch url (init_of b action json)]) Pending None))
      as (Hb & suf & Htr & Hsuf).
    { split; [done |]. exists []. by rewrite app_nil_r. }
    exists suf. simpl. split; [done | split; [done | split]].
    { by rewrite Htr, <- app_assoc. }
    split; [done |]. unfold final. rewrite Hreq, chain_world. simpl. by rewrite Hb.
  - exists url, json, pre. split; [done | split; [done | split; [done | right]]].
    by exists e.
Qed.

Lemma from_slot_request b action service noun data net :
  Body.this (final b action service noun data net) = b
  /\ Forall (from_slot b) (Body.trace (final b action service noun data net)).
Proof.
  destruct (request_cases b action service noun data net)
    as (url & json & pre & _ & Hpre & Hall & [(suf & H)|(e & Hreq)]).
  - simpl in H. destruct H as (_ & Hb & Htr & Hsuf & ->). split; [done |]. simpl.
    rewrite Htr, !Forall_app. split; [split |].
    + eapply Forall_impl; [exact Hall | apply requesting_event_from_slot].
    + constructor; [done |].
      eapply Forall_impl; [exact Hsuf | apply chain_event_from_slot].
    + by apply Forall_finally_events.
  - unfold final. rewrite Hreq. split; [done |]. simpl.
    eapply Forall_impl; [exact Hall | apply requesting_event_from_slot].
Qed.

(** A call was dispatched, that is [fetch] was called, exactly when the
    executor got as far as the chain. *)
Lemma dispatched_cases b action service noun data net :
  dispatched (Body.trace (final b action service noun data net)) = true ->
  exists url json pre suf,
    ((data = JNull /\ url = base_url b service noun /\ json = None)
     \/ (data <> JNull /\ action = Read
         /\ url = base_url b service noun +:+ "?d=" +:+ encodeURIComponent (stringify data)
         /\ json = None)
     \/ (data <> JNull /\ action <> Read /\ url = base_url b service noun
         /\ json = Some (stringify data)))
    /\ dispatched pre = false
    /\ Forall (requesting_event b) pre
    /\ let w1 := world_at b (pre ++ [Fetch url (init_of b action json)]) Pending None in
       let w3 := snd (Body.caught action data url net w1) in
       Body.request action service noun data net (Body.start b)
       = Body.chain action data url net w1
       /\ Body.this w3 = b
       /\ Body.trace w3 = pre ++ [Fetch url (init_of b action json)] ++ suf
       /\ Forall (chain_event b) suf
       /\ final b action service noun data net
          = world_at b (Body.trace w3 ++ finally_events action data url w3)
              (Body.outcome w3) (Body.res w3).
Proof.
  intros Hd.
  destruct (request_cases b action service noun data net)
    as (url & json & pre & Htarget & Hpre & Hall & [(suf & H)|(e & Hreq)]).
  - by exists url, json, pre, suf.
  - unfold final in Hd. rewrite Hreq in Hd. simpl in Hd. congruence.
Qed.

(** C10: a call of [request] leaves the instance as it found it: domain,
    session token and the six callback slots are the same before and after,
    whatever the action, the payload and the way the transport settles, a
    401 response included. *)
Theorem request_leaves_instance_unchanged
    (b : Body.t) (action : actionOptions) (service noun : string) (data : json)
    (net : settled) :
  Body.this (final b action service noun data net) = b.
Proof. exact (proj1 (from_slot_request b action service noun data net)). Qed.

(** ** Registration *)

Lemma t_ext (b1 b2 : Body.t) :
  Body._domain b1 = Body._domain b2 -> Body.token b1 = Body.token b2 ->
  (forall k, Body.slot k b1 = Body.slot k b2) -> b1 = b2.
Proof.
  intros Hd Ht Hs. destruct b1, b2. simpl in *.
  pose proof (Hs Kerror). pose proof (Hs KerrorCode). pose proof (Hs KnoSession).
  pose proof (Hs Krequested). pose proof (Hs Krequesting). pose proof (Hs Kwarning).
  simpl in *. congruence.
Qed.

Lemma key_inj k1 k2 : Body.key k1 = Body.key k2 -> k1 = k2.
Proof. by destruct k1, k2. Qed.

(** One turn of the loop of [on]: a key that names a kind fills the slot of
    that kind with [callbacks.key], any other key does nothing. *)
Lemma on_event_known callbacks k b :
  Body.on_event callbacks (Body.key k) b =
    (Normal tt,
     match k with
     | Kerror => Body.set_error
     | KerrorCode => Body.set_errorCode
     | KnoSession => Body.set_noSession
     | Krequested => Body.set_requested
     | Krequesting => Body.set_requesting
     | Kwarning => Body.set_warning
     end (Body.property callbacks (Body.key k)) b).
Proof. by destruct k. Qed.

Lemma on_event_unknown callbacks event b :
  (forall k, Body.key k <> event) -> Body.on_event callbacks event b = (Normal tt, b).
Proof.
  intros Hk. unfold Body.on_event.
  repeat match goal with
         | |- context [String.eqb event ?s] =>
             destruct (String.eqb_spec event s) as [->|_]
         end; try done.
  - by destruct (Hk Kerror).
  - by destruct (Hk KerrorCode).
  - by destruct (Hk KnoSession).
  - by destruct (Hk Krequested).
  - by destruct (Hk Krequesting).
  - by destruct (Hk Kwarning).
Qed.

Lemma kind_of_key_dec (event : string) :
  {k | Body.key k = event} + {forall k, Body.key k <> event}.
Proof.
  destruct (decide (event = "error")) as [->|?]; [left; by exists Kerror |].
  destruct (decide (event = "errorCode")) as [->|?]; [left; by exists KerrorCode |].
  destruct (decide (event = "noSession")) as [->|?]; [left; by exists KnoSession |].
  destruct (decide (event = "requested")) as [->|?]; [left; by exists Krequested |].
  destruct (decide (event = "requesting")) as [->|?]; [left; by exists Krequesting |].
  destruct (decide (event = "warning")) as [->|?]; [left; by exists Kwarning |].
  right. intros []; simpl; congruence.
Qed.

Lemma on_event_spec callbacks event b :
  fst (Body.on_event callbacks event b) = Normal tt
  /\ Body._domain (snd (Body.on_event callbacks event b)) = Body._domain b
  /\ Body.token (snd (Body.on_event callbacks event b)) = Body.token b
  /\ forall k, Body.slot k (snd (Body.on_event callbacks event b)) =
               if decide (Body.key k = event) then Body.property callbacks (Body.key k)
               else Body.slot k b.
Proof.
  destruct (kind_of_key_dec event) as [[k0 <-]|Hno].
  - rewrite on_event_known.
    split; [done | split; [by destruct k0 | split; [by destruct k0 |]]].
    intros k. case_decide as Hk.
    + apply key_inj in Hk as ->. by destruct k0.
    + destruct k0, k; try done; by destruct Hk.
  - rewrite on_event_unknown by done.
    split; [done | split; [done | split; [done |]]].
    intros k. case_decide as Hk; [by destruct (Hno k) | done].
Qed.

Lemma for_each_on_event callbacks (events : list string) b :
  fst (for_each events (Body.on_event callbacks) b) = Normal tt
  /\ Body._domain (snd (for_each events (Body.on_event callbacks) b)) = Body._domain b
  /\ Body.token (snd (for_each events (Body.on_event callbacks) b)) = Body.token b
  /\ forall k, Body.slot k (snd (for_each events (Body.on_event callbacks) b)) =
               if decide (Body.key k ∈ events) then Body.property callbacks (Body.key k)
               else Body.slot k b.
Proof.
  revert b. induction events as [|event events IH]; intros b.
  - split; [done | split; [done | split; [done |]]].
    intros k. case_decide as Hk; [by apply elem_of_nil in Hk | done].
  - simpl. unfold bind.
    destruct (on_event_spec callbacks event b) as (Hr & Hd & Ht & Hs).
    destruct (Body.on_event callbacks event b) as [r b1]. simpl in *. subst r.
    destruct (IH b1) as (Hr' & Hd' & Ht' & Hs').
    split; [done | split; [congruence | split; [congruence |]]].
    intros k. rewrite Hs', Hs.
    destruct (decide (Body.key k ∈ events)) as [Hin|Hin];
      destruct (decide (Body.key k = event)) as [Heq|Heq];
      destruct (decide (Body.key k ∈ event :: events)) as [Hin'|Hin'];
      try done; exfalso; rewrite elem_of_cons in Hin'; tauto.
Qed.

Lemma elem_of_Object_keys (callbacks : gmap string value) (s : string) :
  s ∈ Body.Object_keys callbacks <-> is_Some (callbacks !! s).
Proof.
  unfold Body.Object_keys. rewrite list_elem_of_fmap. split.
  - intros [[s' v] [-> H]]. apply elem_of_map_to_list in H. by exists v.
  - intros [v Hv]. exists (s, v). split; [done | by apply elem_of_map_to_list].
Qed.

(** What [on] does to an instance. *)
Lemma on_spec (callbacks : gmap string value) (b : Body.t) :
  fst (Body.on callbacks b) = Normal tt
  /\ Body._domain (after (Body.on callbacks) b) = Body._domain b
  /\ Body.token (after (Body.on callbacks) b) = Body.token b
  /\ forall k, Body.slot k (after (Body.on callbacks) b) =
               match callbacks !! Body.key k with
               | Some v => v
               | None => Body.slot k b
               end.
Proof.
  unfold after, Body.on.
  destruct (for_each_on_event callbacks (Body.Object_keys callbacks) b) as (Hr & Hd & Ht & Hs).
  split; [done | split; [done | split; [done |]]].
  intros k. rewrite Hs. unfold Body.property.
  case_decide as Hk.
  - apply elem_of_Object_keys in Hk as [v ->]. done.
  - destruct (callbacks !! Body.key k) eqn:E; [| done].
    destruct Hk. apply elem_of_Object_keys. by exists v.
Qed.

(** C8: [on] never fails; it puts [callbacks.key] in the slot of every
    kind whose key the argument has and leaves the other slots, the domain
    and the token alone; a key that names no kind changes nothing; and a
    call of [request] made afterwards invokes, for a kind, only the function
    then in its slot, so a handler that was replaced is not invoked for
    that kind again. *)
Theorem on_fills_known_slots_only (callbacks : gmap string value) (b : Body.t) :
  fst (Body.on callbacks b) = Normal tt
  /\ Body._domain (after (Body.on callbacks) b) = Body._domain b
  /\ Body.token (after (Body.on callbacks) b) = Body.token b
  /\ (forall k, Body.slot k (after (Body.on callbacks) b) =
                match callbacks !! Body.key k with
                | Some v => v
                | None => Body.slot k b
                end)
  /\ (forall (s : string) (v : value),
        (forall k, Body.key k <> s) ->
        Body.on (<[s := v]> callbacks) b = Body.on callbacks b)
  /\ (forall k v f action service noun data net args,
        callbacks !! Body.key k = Some v ->
        In (Call k f args)
           (Body.trace (final (after (Body.on callbacks) b) action service noun data net)) ->
        v = Func f).
Proof.
  destruct (on_spec callbacks b) as (Hr & Hd & Ht & Hs).
  split; [done | split; [done | split; [done | split; [done | split]]]].
  - intros s v Hs'.
    destruct (on_spec (<[s := v]> callbacks) b) as (Hr' & Hd' & Ht' & Hs'').
    unfold after in *.
    destruct (Body.on (<[s := v]> callbacks) b) as [r1 b1].
    destruct (Body.on callbacks b) as [r2 b2]. simpl in *. subst r1 r2. f_equal.
    apply t_ext; [congruence | congruence |].
    intros k. rewrite Hs'', Hs, lookup_insert_ne; [done | by apply not_eq_sym].
  - intros k v f action service noun data net args Hv Hin.
    pose proof (from_slot_request (after (Body.on callbacks) b) action service noun data net)
      as [_ Htr].
    rewrite Forall_forall in Htr. apply list_elem_of_In in Hin.
    specialize (Htr _ Hin). simpl in Htr. rewrite Hs, Hv in Htr. done.
Qed.

(** ** The request sent *)

Lemma append_empty s1 s2 : s1 +:+ s2 = "" -> s1 = "" /\ s2 = "".
Proof. destruct s1 as [|c s1]; [done |]. intros H. by inversion H. Qed.

Lemma decimal_nonempty n : decimal n <> "".
Proof. unfold decimal, NilZero.string_of_uint. by destruct (N.to_uint _). Qed.

Lemma layout_nonempty ds n : ds <> "" -> layout ds n <> "".
Proof.
  intros Hds. unfold layout.
  repeat match goal with |- context [if ?c then _ else _] => destruct c end.
  all: intros H; apply append_empty in H as [H1 H2]; try done.
  all: apply append_empty in H2 as [H2 _]; done.
Qed.

Lemma number_to_string_nonempty x : number_to_string x <> "".
Proof.
  unfold number_to_string. destruct (magnitude x) as [|m e|]; [done | | by destruct (negative x)].
  destruct (scale 2 m 1 e) as [a b]. destruct (shortest _ _ _ _ _ _ _) as [s n].
  intros H. apply append_empty in H as [_ H]. revert H.
  apply layout_nonempty, decimal_nonempty.
Qed.

Lemma stringify_nonempty (j : json) : truthy_string (Some (stringify j)) = true.
Proof.
  unfold truthy_string.
  destruct j as [|[]|x|s|l|l]; try done.
  cbn [stringify]. destruct (is_finite x); [| done].
  pose proof (number_to_string_nonempty x).
  by destruct (String.eqb_spec (number_to_string x) "").
Qed.

Lemma fetched_app tr1 tr2 : fetched (tr1 ++ tr2) = fetched tr1 ++ fetched tr2.
Proof. unfold fetched. apply omap_app. Qed.

Lemma fetched_not_dispatched tr : dispatched tr = false -> fetched tr = [].
Proof.
  induction tr as [|e tr IH]; [done |]. simpl.
  destruct e; simpl; try done; intros H; by apply IH.
Qed.

Lemma fetched_one pre url init suf fin :
  dispatched pre = false -> dispatched suf = false -> dispatched fin = false ->
  fetched ((pre ++ Fetch url init :: suf) ++ fin) = [(url, init)].
Proof.
  intros Hpre Hsuf Hfin. rewrite !fetched_app.
  change (fetched (Fetch url init :: suf)) with ((url, init) :: fetched suf).
  by rewrite !fetched_not_dispatched, app_nil_r.
Qed.

(** A dispatched call hands exactly one request to [fetch]. *)
Lemma fetched_final b action service noun data net :
  dispatched (Body.trace (final b action service noun data net)) = true ->
  exists url json,
    ((data = JNull /\ url = base_url b service noun /\ json = None)
     \/ (data <> JNull /\ action = Read
         /\ url = base_url b service noun +:+ "?d=" +:+ encodeURIComponent (stringify data)
         /\ json = None)
     \/ (data <> JNull /\ action <> Read /\ url = base_url b service noun
         /\ json = Some (stringify data)))
    /\ fetched (Body.trace (final b action service noun data net))
       = [(url, init_of b action json)].
Proof.
  intros Hd.
  destruct (dispatched_cases _ _ _ _ _ _ Hd)
    as (url & json & pre & suf & Htarget & Hpre & _ & H).
  simpl in H. destruct H as (_ & _ & Htr & Hsuf & ->).
  exists url, json. split; [done |]. simpl.
  rewrite Htr. apply fetched_one; [done | by eapply chain_event_not_fetch |].
  apply finally_events_not_fetch.
Qed.

(** *** The text of a payload *)

Lemma escape_char_text c :
  (unescaped c = true /\ escape_char c = String c EmptyString)
  \/ (exists e, escape_sequence c e /\ escape_char c = backslash +:+ e).
Proof.
  destruct c as [[] [] [] [] [] [] [] []];
    first
      [ left; split; reflexivity
      | right; eexists; split; [| reflexivity]; unfold escape_sequence;
        first
          [ do 0 right; left; split; reflexivity
          | do 1 right; left; split; reflexivity
          | do 3 right; left; split; reflexivity
          | do 4 right; left; split; reflexivity
          | do 5 right; left; split; reflexivity
          | do 6 right; left; split; reflexivity
          | do 7 right; left; split; reflexivity
          | do 8 right; eexists _, _, _, _, _, _, _, _;
            split; [reflexivity |];
            split; [reflexivity |]; split; [reflexivity |];
            split; [reflexivity |]; split; [reflexivity |];
            split; [reflexivity | vm_compute; lia] ] ].
Qed.

Lemma append_assoc s1 s2 s3 : (s1 +:+ s2) +:+ s3 = s1 +:+ s2 +:+ s3.
Proof.
  induction s1 as [|c s1 IH]; [done |].
  change (String c ((s1 +:+ s2) +:+ s3) = String c (s1 +:+ s2 +:+ s3)). by rewrite IH.
Qed.

Lemma escape_text s : string_text s (escape s).
Proof.
  induction s as [|c s IH]; [constructor |]. cbn [escape].
  destruct (escape_char_text c) as [[Hc ->]|(e & He & ->)].
  - by apply string_text_plain.
  - rewrite append_assoc. by apply string_text_escape.
Qed.

Lemma join_more sep x y (l : list string) :
  join sep (x :: y :: l) = x +:+ sep +:+ join sep (y :: l).
Proof. reflexivity. Qed.

Lemma stringify_text (j : json) : JSON_text j (stringify j).
Proof.
  revert j. fix IH 1. intros [|[]|x|s|l|l]; cbn [stringify].
  - constructor.
  - constructor.
  - constructor.
  - constructor.
  - apply text_string, escape_text.
  - apply text_array. induction l as [|j [|j' l] IHl].
    + constructor.
    + apply elements_last, IH.
    + rewrite !map_cons, join_more. rewrite !map_cons in IHl.
      apply (elements_more j _ j' l); [apply IH | exact IHl].
  - apply text_object. induction l as [|[k j] [|m l] IHl].
    + constructor.
    + cbn [map join fst snd]. unfold quote. rewrite !append_assoc.
      apply members_last; [apply escape_text | apply IH].
    + rewrite !map_cons, join_more. rewrite !map_cons in IHl. cbn [fst snd].
      unfold quote at 1. rewrite !append_assoc.
      apply (members_more k _ j _ m l); [apply escape_text | apply IH | exact IHl].
Qed.

Lemma encoded_char_decodes c rest :
  percent_decode
    ((if unreserved c then String c EmptyString else "%" +:+ hex_byte true c) +:+ rest)
  = match percent_decode rest with
    | Some t => Some (String c t)
    | None => None
    end.
Proof. destruct c as [[] [] [] [] [] [] [] []]; reflexivity. Qed.

Lemma percent_decode_encode s : percent_decode (encodeURIComponent s) = Some s.
Proof.
  induction s as [|c s IH]; [done |]. cbn [encodeURIComponent].
  by rewrite encoded_char_decodes, IH.
Qed.

Lemma string_forall_app p s1 s2 :
  string_forall p (s1 +:+ s2) = string_forall p s1 && string_forall p s2.
Proof.
  induction s1 as [|c s1 IH]; [done |].
  change (String c s1 +:+ s2) with (String c (s1 +:+ s2)). cbn [string_forall].
  by rewrite IH, andb_assoc.
Qed.

Lemma encoded_char_no_delimiter c :
  string_forall (fun c' => negb (url_delimiter c'))
    (if unreserved c then String c EmptyString else "%" +:+ hex_byte true c) = true.
Proof. destruct c as [[] [] [] [] [] [] [] []]; reflexivity. Qed.

Lemma encodeURIComponent_no_delimiter s :
  string_forall (fun c => negb (url_delimiter c)) (encodeURIComponent s) = true.
Proof.
  induction s as [|c s IH]; [done |]. cbn [encodeURIComponent].
  by rewrite string_forall_app, encoded_char_no_delimiter, IH.
Qed.

(** C5: the request handed to [fetch] has the method of the fixed table;
    a [read] with a payload carries the percent-encoded JSON text of the
    payload as the query parameter [d] and no body; any other action with a
    payload carries the JSON text as body, under the JSON content type, and
    no query. The JSON text is a text that RFC 8259 reads as the payload;
    its percent-encoding stands for it and holds none of the characters
    that delimit the parameters of a query, so that [d] is the single
    parameter. *)
Theorem request_method_and_payload_encoding
    (b : Body.t) (action : actionOptions) (service noun : string) (data : json)
    (net : settled) :
  dispatched (Body.trace (final b action service noun data net)) = true ->
  exists url init,
    fetched (Body.trace (final b action service noun data net)) = [(url, init)]
    /\ method init = match action with
                     | Create => "POST"
                     | Read => "GET"
                     | Update => "PUT"
                     | Delete => "DELETE"
                     end
    /\ header "Content-Type" init = Some "application/json; charset=utf-8"
    /\ (data <> JNull -> action = Read ->
        url = "https://" +:+ Body._domain b +:+ "/" +:+ service +:+ "/" +:+ noun
              +:+ "?d=" +:+ encodeURIComponent (stringify data)
        /\ body init = None)
    /\ (data <> JNull -> action <> Read ->
        url = "https://" +:+ Body._domain b +:+ "/" +:+ service +:+ "/" +:+ noun
        /\ body init = Some (stringify data))
    /\ JSON_text data (stringify data)
    /\ percent_decode (encodeURIComponent (stringify data)) = Some (stringify data)
    /\ string_forall (fun c => negb (url_delimiter c))
         (encodeURIComponent (stringify data)) = true.
Proof.
  intros Hd.
  destruct (fetched_final _ _ _ _ _ _ Hd) as (url & json & Htarget & Hf).
  exists url, (init_of b action json).
  split; [done | split; [by destruct action | split; [done |]]].
  match goal with |- ?A /\ ?B /\ _ => cut (A /\ B) end.
  { intros [Hread Hother].
    split; [exact Hread | split; [exact Hother |]].
    split; [apply stringify_text |].
    split; [apply percent_decode_encode | apply encodeURIComponent_no_delimiter]. }
  assert (Happ : forall s1 s2 s3, (s1 +:+ s2) +:+ s3 = s1 +:+ s2 +:+ s3).
  { intros s1 s2 s3. induction s1 as [|c s1 IH]; [done |].
    change (String c ((s1 +:+ s2) +:+ s3) = String c (s1 +:+ s2 +:+ s3)). by rewrite IH. }
  unfold base_url in Htarget.
  destruct Htarget as [(Hnull & _)|[(_ & Hread & -> & ->)|(_ & Hread & -> & ->)]].
  - split; intros Hdata; by destruct Hdata.
  - split; [| done]. intros _ _. split; [| done]. by rewrite !Happ.
  - split; [done |]. intros _ _. split; [done |].
    unfold init_of. cbn [body]. by rewrite stringify_nonempty.
Qed.

(** C6: [session(token)] stores its argument, and a dispatched request
    carries the stored token, as it is, as its [Authorization] header when
    the token is a non-empty string, and no [Authorization] header when it
    is [null] (or empty). *)
Theorem authorization_header_follows_session
    (b0 : Body.t) (t : option string) (action : actionOptions) (service noun : string)
    (data : json) (net : settled) :
  Body.token (after (Body.session (Some t)) b0) = t
  /\ forall b,
       Body.token b = t ->
       dispatched (Body.trace (final b action service noun data net)) = true ->
       exists url init,
         fetched (Body.trace (final b action service noun data net)) = [(url, init)]
         /\ header "Authorization" init =
              match t with
              | Some tok => if String.eqb tok "" then None else Some tok
              | None => None
              end.
Proof.
  split; [done |]. intros b Ht Hd.
  destruct (fetched_final _ _ _ _ _ _ Hd) as (url & json & _ & Hf).
  exists url, (init_of b action json). split; [done |].
  unfold header, init_of. simpl. rewrite Ht.
  destruct t as [tok|]; [| done]. simpl.
  by destruct (String.eqb tok "").
Qed.

(** C9: on a dispatched call the after-request hook is invoked exactly
    once, as the last thing the call does, with the action, the payload,
    the URL requested and the response read, however the transport settled
    and whatever became of the promise. *)
Theorem requested_fires_once_after_classification
    (b : Body.t) (action : actionOptions) (service noun : string) (data : json)
    (net : settled) (f : callback) :
  Body.requested b = Func f ->
  dispatched (Body.trace (final b action service noun data net)) = true ->
  exists tr info,
    Body.trace (final b action service noun data net)
    = tr ++ [Call Krequested f [ArgRequested info]]
    /\ (forall e, In e tr -> is_call Krequested e = false)
    /\ rq_action info = action
    /\ rq_data info = data
    /\ rq_res info = Body.res (final b action service noun data net)
    /\ exists init, fetched tr = [(rq_url info, init)].
Proof.
  intros Hf Hd.
  destruct (dispatched_cases _ _ _ _ _ _ Hd)
    as (url & json & pre & suf & _ & Hpre & Hall & H).
  simpl in H. destruct H as (_ & Hb & Htr & Hsuf & ->).
  unfold finally_events, requested_args. rewrite Hb, Hf. simpl.
  eexists _, _. split; [reflexivity |]. simpl.
  split; [| split; [done | split; [done | split; [done |]]]].
  - intros e He. rewrite Htr in He. apply in_app_or in He as [He|[<-|He]]; [| done |].
    + rewrite Forall_forall in Hall. apply list_elem_of_In, Hall in He.
      by destruct e as [[] ? ?| |].
    + rewrite Forall_forall in Hsuf. apply list_elem_of_In, Hsuf in He.
      destruct e as [[] ? ?| |]; simpl in *; try done; by destruct He.
  - exists (init_of b action json). rewrite Htr, <- (app_nil_r (pre ++ _)).
    apply fetched_one; [done | by eapply chain_event_not_fetch | done].
Qed.

(** ** Running the closures *)

Lemma call_run k f args b tr p r :
  Body.call k (Func f) args (world_at b tr p r)
  = (cb_run f args, world_at b (tr ++ [Call k f args]) p r).
Proof. unfold Body.call, bind, lift. simpl. by destruct (cb_run f args). Qed.

Lemma handleError_run action data url message b tr p r :
  Body.handleError action data url message (world_at b tr p r)
  = match Body.error b with
    | Func f =>
        (match cb_run f (error_args action data url message) with
         | Normal _ => Normal tt
         | Throw e => Throw e
         end,
         world_at b (tr ++ [Call Kerror f (error_args action data url message)]) p r)
    | v =>
        (Throw (if truthy_value v then TypeError "_.error is not a function"
                else Error message),
         world_at b tr p r)
    end.
Proof.
  unfold Body.handleError. rewrite bind_get. cbn [Body.this].
  destruct (Body.error b) as [|j|f]; cbn [truthy_value];
    [reflexivity | destruct (truthy j); reflexivity |]. unfold bind at 1. rewrite call_run.
  fold (error_args action data url message). by destruct (cb_run f _).
Qed.

Lemma finally_run action data url b tr p r :
  quiet (Body.requested b) ->
  fst (Body.finally_ action data url (world_at b tr p r)) = Normal tt.
Proof.
  intros Hq. unfold Body.finally_. rewrite bind_get. cbn [Body.this Body.res].
  destruct (Body.requested b) as [|j|f]; cbn [truthy_value quiet] in *.
  - reflexivity.
  - by rewrite Hq.
  - unfold bind at 1. rewrite call_run.
    match goal with |- context [cb_run f ?args] => destruct (Hq args) as [v ->] end.
    reflexivity.
Qed.

Lemma caught_unfold action data url net w :
  Body.caught action data url net w
  = let m1 := match net with
              | Fulfilled response => Body.then_response action data url response
              | Failed reason => throw reason
              end w in
    let m2 := match fst m1 with
              | Normal result => Body.then_result action data url result
              | Throw e => throw e
              end (snd m1) in
    let m3 := match fst m2 with
              | Normal _ => ret tt
              | Throw e => Body.catch_reason action data url e
              end (snd m2) in
    (Normal (fst m3), snd m3).
Proof.
  unfold Body.caught. rewrite !bind_attempt. unfold attempt. cbv zeta.
  match goal with |- context [let (_, _) := ?m in _] => by destruct m end.
Qed.

Lemma fetched_dispatched tr url init : fetched tr = [(url, init)] -> dispatched tr = true.
Proof.
  intros H. destruct (dispatched tr) eqn:E; [done |].
  by rewrite (fetched_not_dispatched tr E) in H.
Qed.

(** A dispatched call in terms of its chain: the world and the completion
    it ends with are those of [caught] followed by [finally]. *)
Lemma sent_run b action service noun data net url init :
  fetched (Body.trace (final b action service noun data net)) = [(url, init)] ->
  exists tr1,
    let c := Body.caught action data url net (world_at b tr1 Pending None) in
    Forall (before_chain b) tr1
    /\ final b action service noun data net
       = world_at b (Body.trace (snd c) ++ finally_events action data url (snd c))
           (Body.outcome (snd c)) (Body.res (snd c))
    /\ escaped b action service noun data net
       = match fst (Body.finally_ action data url (snd c)) with
         | Normal _ =>
             match fst c with
             | Normal r3 => r3
             | Throw e => Throw e
             end
         | Throw e => Throw e
         end.
Proof.
  intros Hf. pose proof (fetched_dispatched _ _ _ Hf) as Hd.
  destruct (fetched_final _ _ _ _ _ _ Hd) as (url' & json' & _ & Hf').
  destruct (dispatched_cases _ _ _ _ _ _ Hd)
    as (url'' & json & pre & suf & _ & Hpre & Hall & H).
  cbv zeta in H. destruct H as (Hreq & Hb & Htr & Hsuf & Hfinal).
  assert (url'' = url) as ->.
  { assert (Hone : fetched (Body.trace (final b action service noun data net))
                   = [(url'', init_of b action json)]).
    { rewrite Hfinal. cbn [Body.trace]. rewrite Htr.
      apply fetched_one;
        [done | by eapply chain_event_not_fetch | apply finally_events_not_fetch]. }
    congruence. }
  exists (pre ++ [Fetch url (init_of b action json)]). cbv zeta.
  split; [| split; [done |]].
  - apply Forall_app. split.
    + eapply Forall_impl; [exact Hall |]. intros e He. by left.
    + constructor; [by right | constructor].
  - unfold escaped. by rewrite Hreq, chain_unfold.
Qed.

Lemma before_chain_not_error b tr e :
  Forall (before_chain b) tr -> In e tr -> is_call Kerror e = false /\ e <> ResponseJson.
Proof.
  intros Hall He. rewrite Forall_forall in Hall. apply list_elem_of_In, Hall in He.
  destruct He as [He|He]; destruct e as [[] ? ?| |]; done.
Qed.

Lemma finally_events_not_error action data url w e :
  In e (finally_events action data url w) ->
  is_call Kerror e = false /\ e <> ResponseJson.
Proof.
  unfold finally_events. destruct (Body.requested _); simpl; try tauto.
  by intros [<-|[]].
Qed.

Lemma then_result_None action data url w :
  Body.then_result action data url None w = (Normal tt, w).
Proof. reflexivity. Qed.

Lemma then_response_401 action data url r b tr p res0 :
  status r = 401 ->
  Body.then_response action data url r (world_at b tr p res0)
  = match Body.noSession b with
    | Func f =>
        (match cb_run f [] with
         | Normal _ => Normal None
         | Throw e => Throw e
         end,
         world_at b (tr ++ [Call KnoSession f []]) p res0)
    | v =>
        (Throw (if truthy_value v then TypeError "_.noSession is not a function"
                else Error (unauthorized_message action url)),
         world_at b tr p res0)
    end.
Proof.
  intros Hstatus. unfold Body.then_response.
  assert (ok r = false) as -> by (unfold ok; by rewrite Hstatus).
  rewrite Hstatus. change (401 =? 401) with true. cbv iota.
  rewrite bind_get. cbn [Body.this].
  destruct (Body.noSession b) as [|j|f]; cbn [truthy_value];
    [reflexivity | destruct (truthy j); reflexivity |].
  unfold bind at 1. rewrite call_run. by destruct (cb_run f []).
Qed.

Lemma in_after_chain b tr1 rest e :
  Forall (before_chain b) tr1 ->
  In e (tr1 ++ rest) ->
  (is_call Kerror e = false /\ e <> ResponseJson) \/ In e rest.
Proof.
  intros Htr1. rewrite in_app_iff. intros [He|He]; [left | tauto].
  by eapply before_chain_not_error.
Qed.

Ltac trace_cases Htr1 He :=
  rewrite <- ?app_assoc in He;
  apply (in_after_chain _ _ _ _ Htr1) in He;
  destruct He as [[? ?]|He]; [done |];
  simpl in He;
  repeat (let He' := fresh in
          destruct He as [He'|He]; [first [discriminate He' | by subst] |]);
  apply finally_events_not_error in He; by destruct He.

Ltac trace_member := rewrite ?in_app_iff; simpl; tauto.

(** C4 (amended): on a 401 the promise stays pending and the body is not
    read. With a no-session hook that returns, the hook is invoked without
    arguments and the error hook is not invoked. Without a no-session hook
    the error thrown is caught by the [catch] of the chain, which hands it
    to the error hook when one is registered: the call then ends well when
    that hook returns, and in an unhandled error, the one the hook threw,
    when it throws. Without an error hook the [catch] throws its own
    [Error], which nothing handles. Whether the call ends well is said for
    an after-request hook that returns, since one that throws makes the
    call end in what it threw. *)
Theorem unauthorized_without_hook_goes_to_catch
    (b : Body.t) (action : actionOptions) (service noun : string) (data : json)
    (r : response) (url : string) (init : fetchInit) :
  status r = 401 ->
  fetched (Body.trace (final b action service noun data (Fulfilled r))) = [(url, init)] ->
  let w := final b action service noun data (Fulfilled r) in
  let esc := escaped b action service noun data (Fulfilled r) in
  let message := failed_message action url (Error (unauthorized_message action url)) in
  Body.outcome w = Pending
  /\ ~ In ResponseJson (Body.trace w)
  /\ (forall f v,
        Body.noSession b = Func f -> cb_run f [] = Normal v ->
        In (Call KnoSession f []) (Body.trace w)
        /\ (forall e, In e (Body.trace w) -> is_call Kerror e = false)
        /\ (quiet (Body.requested b) -> esc = Normal tt))
  /\ (truthy_value (Body.noSession b) = false ->
      (forall g,
         Body.error b = Func g ->
         In (Call Kerror g (error_args action data url message)) (Body.trace w)
         /\ (forall v, cb_run g (error_args action data url message) = Normal v ->
                       quiet (Body.requested b) -> esc = Normal tt)
         /\ (forall x, cb_run g (error_args action data url message) = Throw x ->
                       (exists e, esc = Throw e)
                       /\ (quiet (Body.requested b) -> esc = Throw x)))
      /\ (truthy_value (Body.error b) = false ->
          (exists e, esc = Throw e)
          /\ (quiet (Body.requested b) -> esc = Throw (Error message)))).
Proof.
  intros Hstatus Hf w esc message. subst w esc message.
  destruct (sent_run _ _ _ _ _ _ _ _ Hf) as (tr1 & Hrun). cbv zeta in Hrun.
  destruct Hrun as (Htr1 & -> & ->). clear Hf.
  rewrite caught_unfold. cbv zeta. rewrite (then_response_401 _ _ _ _ _ _ _ _ Hstatus).
  unfold Body.catch_reason. fold (unauthorized_message action url).
  destruct (Body.noSession b) as [|j|f] eqn:HnoS; cbn [fst snd truthy_value];
    [ | destruct (truthy j) eqn:Hj | destruct (cb_run f []) as [v|e] eqn:Hrun ];
    rewrite ?then_result_None; unfold throw, ret; cbn [fst snd];
    rewrite ?handleError_run;
    fold (failed_message action url (Error (unauthorized_message action url)));
    try (destruct (Body.error b) as [|j'|g] eqn:Herr; cbn [fst snd truthy_value]);
    cbn [Body.trace Body.outcome Body.res Body.this].
  all: split; [reflexivity |].
  all: split; [intros He; trace_cases Htr1 He |].
  all: split; [intros f' v' Hf' Hv' | intros HnoS'; split; [intros g' Hg' | intros Hq]];
    try discriminate.
  all: try (injection Hf' as <-); try (injection Hg' as <-); try congruence.
  all: try (cbn [truthy_value] in Hq;
            match type of Hq with truthy _ = false => rewrite Hq end).
  all: try (split; [destruct (fst (Body.finally_ _ _ _ _)); by eexists
                   | intros Hq'; by rewrite finally_run]).
  all: split; [trace_member |].
  all: first
         [ split; [intros v' Hv' Hq; rewrite finally_run by done; by rewrite Hv' |];
           intros x Hx; rewrite Hx;
           split; [destruct (fst (Body.finally_ _ _ _ _)); by eexists
                  | intros Hq; by rewrite finally_run]
         | split; [intros e He; trace_cases Htr1 He | intros Hq; by rewrite finally_run] ].
Qed.

Lemma invalid_content_type_spec ct :
  invalid_content_type ct = negb (bool_decide (ct = Some Body.JSON_CONTENT_TYPE)).
Proof.
  unfold invalid_content_type. case_bool_decide as H; [| by rewrite orb_true_r].
  by subst ct.
Qed.

Lemma then_response_ok action data url r b tr p res0 :
  ok r = true ->
  Body.then_response action data url r (world_at b tr p res0)
  = let h := if invalid_content_type (content_type r) then
               Body.handleError action data url
                 (content_type_message action url (content_type r)) (world_at b tr p res0)
             else (Normal tt, world_at b tr p res0) in
    match fst h with
    | Normal _ =>
        (match json_body r with
         | Normal j => Normal (Some j)
         | Throw e => Throw e
         end,
         world_at (Body.this (snd h)) (Body.trace (snd h) ++ [ResponseJson])
           (Body.outcome (snd h)) (Body.res (snd h)))
    | Throw e => (Throw e, snd h)
    end.
Proof.
  intros Hok. unfold Body.then_response. rewrite Hok.
  fold (invalid_content_type (content_type r)).
  fold (content_type_message action url (content_type r)).
  destruct (invalid_content_type (content_type r)); cbv zeta.
  - unfold bind at 1.
    destruct (Body.handleError _ _ _ _ _) as [[[]|e] w']; cbn [fst snd]; [| done].
    unfold bind, Body.emit, modify, lift. by destruct (json_body r).
  - unfold bind, ret, Body.emit, modify, lift. cbn. by destruct (json_body r).
Qed.

(** Past the first [then], the chain only adds to the trace. *)
Lemma after_response_extends b action data url (r1 : completion (option json)) w2 :
  Body.this w2 = b ->
  let m2 := match r1 with
            | Normal result => Body.then_result action data url result
            | Throw e => throw e
            end w2 in
  let m3 := match fst m2 with
            | Normal _ => ret tt
            | Throw e => Body.catch_reason action data url e
            end (snd m2) in
  exists suf, Body.trace (snd m3) = Body.trace w2 ++ suf.
Proof.
  intros Hb m2 m3.
  assert (H0 : Inv (chain_event b) b (Body.trace w2) w2).
  { split; [done |]. exists []. by rewrite app_nil_r. }
  assert (H2 : Inv (chain_event b) b (Body.trace w2) (snd m2)).
  { subst m2. destruct r1; [by apply Inv_then_result | done]. }
  assert (H3 : Inv (chain_event b) b (Body.trace w2) (snd m3)).
  { subst m3. destruct (fst m2); [done | by apply Inv_handleError]. }
  destruct H3 as (_ & suf & Hsuf & _). by exists suf.
Qed.

(** C3 (amended): a 2xx response whose Content-Type is missing or is not
    the JSON content type is reported with a message that names the
    method, the URL and the content type received. Without an error hook
    the message is thrown: the body is not read, the promise stays pending
    and the call ends in an unhandled error. With an error hook the hook
    gets the message, and when it returns the body is read all the same. *)
Theorem invalid_content_type_is_reported_then_parsed
    (b : Body.t) (action : actionOptions) (service noun : string) (data : json)
    (r : response) (url : string) (init : fetchInit) :
  ok r = true ->
  content_type r <> Some "application/json; charset=utf-8" ->
  fetched (Body.trace (final b action service noun data (Fulfilled r))) = [(url, init)] ->
  let w := final b action service noun data (Fulfilled r) in
  let esc := escaped b action service noun data (Fulfilled r) in
  let message :=
    METHODS action +:+ " " +:+ url +:+ " returned invalid Content-Type: "
    +:+ template_string (content_type r) in
  (truthy_value (Body.error b) = false ->
   ~ In ResponseJson (Body.trace w)
   /\ Body.outcome w = Pending
   /\ (exists e, esc = Throw e)
   /\ (quiet (Body.requested b) ->
       esc = Throw (Error (failed_message action url (Error message)))))
  /\ (forall f,
        Body.error b = Func f ->
        In (Call Kerror f (error_args action data url message)) (Body.trace w)
        /\ forall v, cb_run f (error_args action data url message) = Normal v ->
                     In ResponseJson (Body.trace w)).
Proof.
  intros Hok Hct Hf w esc message. subst w esc message.
  fold (content_type_message action url (content_type r)).
  destruct (sent_run _ _ _ _ _ _ _ _ Hf) as (tr1 & Hrun). cbv zeta in Hrun.
  destruct Hrun as (Htr1 & -> & ->). clear Hf.
  rewrite caught_unfold. cbv zeta. rewrite (then_response_ok _ _ _ _ _ _ _ _ Hok).
  rewrite invalid_content_type_spec. rewrite bool_decide_eq_false_2 by done.
  cbn [negb]. cbv zeta. rewrite handleError_run.
  split.
  - intros Herr.
    destruct (Body.error b) as [|j|f] eqn:Herr'; cbn [fst snd truthy_value] in *;
      [ | rewrite Herr | discriminate ];
      unfold throw; cbn [fst snd]; unfold Body.catch_reason; rewrite handleError_run;
      fold (failed_message action url
              (Error (content_type_message action url (content_type r))));
      rewrite Herr'; cbn [fst snd Body.trace Body.outcome Body.res truthy_value].
    all: rewrite ?Herr.
    all: split; [intros He; trace_cases Htr1 He | split; [done | split]].
    all: first [ intros Hq; by rewrite finally_run
               | destruct (fst (Body.finally_ _ _ _ _)); by eexists ].
  - intros f Herr. rewrite Herr.
    set (args := error_args action data url
                   (content_type_message action url (content_type r))).
    destruct (cb_run f args) as [v0|e0] eqn:Hrun;
      cbn [fst snd Body.this Body.trace Body.outcome Body.res].
    + destruct (after_response_extends b action data url
                  (match json_body r with
                   | Normal j => Normal (Some j)
                   | Throw e => Throw e
                   end)
                  (world_at b ((tr1 ++ [Call Kerror f args]) ++ [ResponseJson]) Pending None)
                  eq_refl) as (suf & Hsuf).
      cbv zeta in Hsuf. rewrite Hsuf. cbn [Body.trace].
      split; [trace_member | intros _ _; trace_member].
    + destruct (after_response_extends b action data url (Throw e0)
                  (world_at b (tr1 ++ [Call Kerror f args]) Pending None)
                  eq_refl) as (suf & Hsuf).
      cbv zeta in Hsuf. rewrite Hsuf. cbn [Body.trace].
      split; [trace_member | intros v Hv; discriminate].
Qed.

(** ** Classification of the envelope *)

(** When the body of a 2xx response was read, the first [then] went
    through: it returned what the body parsed to, the promise still
    pending. *)
Lemma response_read b action data url r j tr1 :
  ok r = true ->
  json_body r = Normal j ->
  Forall (before_chain b) tr1 ->
  let c := Body.caught action data url (Fulfilled r) (world_at b tr1 Pending None) in
  In ResponseJson (Body.trace (snd c) ++ finally_events action data url (snd c)) ->
  exists tr2,
    Body.then_response action data url r (world_at b tr1 Pending None)
    = (Normal (Some j), world_at b (tr1 ++ tr2) Pending None).
Proof.
  intros Hok Hj Htr1 c. subst c. rewrite caught_unfold. cbv zeta.
  rewrite (then_response_ok _ _ _ _ _ _ _ _ Hok), Hj.
  destruct (invalid_content_type (content_type r)); cbv zeta; cbn [fst snd].
  - rewrite handleError_run.
    destruct (Body.error b) as [|j'|f] eqn:Herr; cbn [fst snd];
      [ | | destruct (cb_run f _) as [v|e] eqn:Hrun;
            cbn [fst snd Body.this Body.trace Body.outcome Body.res] ].
    3: { intros _. eexists. by rewrite <- app_assoc. }
    all: unfold throw; cbn [fst snd]; unfold Body.catch_reason; rewrite handleError_run;
      rewrite Herr; cbn [fst snd Body.trace].
    all: intros He; exfalso; trace_cases Htr1 He.
  - intros _. by eexists.
Qed.

Lemma check_error_object action data url l b tr :
  Body.check_error action data url (JObj l) (world_at b tr Pending (Some (JObj l)))
  = match assoc "error" l with
    | Some e =>
        if truthy e then
          match Body.errorCode b with
          | Func f =>
              let args := envelope_args action data url (JObj l) e in
              match cb_run f args with
              | Normal v =>
                  if strictly_false v then
                    (Normal true,
                     world_at b (tr ++ [Call KerrorCode f args])
                       (Rejected (ServiceError e)) (Some (JObj l)))
                  else
                    (Normal false,
                     world_at b (tr ++ [Call KerrorCode f args]) Pending (Some (JObj l)))
              | Throw x =>
                  (Throw x,
                   world_at b (tr ++ [Call KerrorCode f args]) Pending (Some (JObj l)))
              end
          | v =>
              if truthy_value v then
                (Throw (TypeError "_.errorCode is not a function"),
                 world_at b tr Pending (Some (JObj l)))
              else
                (Normal true,
                 world_at b tr (Rejected (ServiceError e)) (Some (JObj l)))
          end
        else (Normal false, world_at b tr Pending (Some (JObj l)))
    | None => (Normal false, world_at b tr Pending (Some (JObj l)))
    end.
Proof.
  unfold Body.check_error. cbn [js_in js_get lift].
  destruct (assoc "error" l) as [e|]; [| reflexivity].
  rewrite bool_decide_eq_true_2 by (by eexists).
  unfold bind at 1. cbn [ret andb].
  destruct (truthy e); [| reflexivity].
  rewrite bind_get. cbn [Body.this Body.res].
  destruct (Body.errorCode b) as [|j|f]; cbn [truthy_value negb];
    [reflexivity | destruct (truthy j); reflexivity |].
  unfold bind at 1. rewrite call_run. cbv zeta. unfold envelope_args.
  destruct (cb_run f _) as [v|x]; [| reflexivity].
  by destruct (strictly_false v).
Qed.

Lemma check_warning_run action data url l b tr p res0 :
  Body.check_warning action data url (JObj l) (world_at b tr p res0)
  = match assoc "warning" l with
    | Some warn =>
        if truthy warn && truthy_value (Body.warning b) then
          match Body.warning b with
          | Func g =>
              (match cb_run g [ArgJson warn;
                               ArgRequested {| rq_action := action; rq_data := data;
                                               rq_res := res0; rq_url := url |}] with
               | Normal _ => Normal tt
               | Throw x => Throw x
               end,
               world_at b
                 (tr ++ [Call Kwarning g
                           [ArgJson warn;
                            ArgRequested {| rq_action := action; rq_data := data;
                                            rq_res := res0; rq_url := url |}]])
                 p res0)
          | _ => (Throw (TypeError "_.warning is not a function"), world_at b tr p res0)
          end
        else (Normal tt, world_at b tr p res0)
    | None => (Normal tt, world_at b tr p res0)
    end.
Proof.
  unfold Body.check_warning. cbn [js_in js_get lift].
  unfold bind at 1. cbn [ret]. rewrite bind_get. cbn [Body.this Body.res].
  destruct (assoc "warning" l) as [warn|]; [| reflexivity].
  rewrite bool_decide_eq_true_2 by (by eexists). cbn [andb].
  destruct (truthy warn); cbn [andb]; [| reflexivity].
  destruct (Body.warning b) as [|j|g]; cbn [truthy_value];
    [reflexivity | destruct (truthy j); reflexivity |].
  unfold bind at 1. rewrite call_run. by destruct (cb_run g _).
Qed.

Lemma check_warning_object action data url l b tr p res0 :
  exists suf,
    snd (Body.check_warning action data url (JObj l) (world_at b tr p res0))
    = world_at b (tr ++ suf) p res0
    /\ (quiet (Body.warning b) ->
        fst (Body.check_warning action data url (JObj l) (world_at b tr p res0))
        = Normal tt).
Proof.
  rewrite check_warning_run.
  destruct (assoc "warning" l) as [warn|]; [| exists []; by rewrite app_nil_r].
  destruct (truthy warn); cbn [andb]; [| exists []; by rewrite app_nil_r].
  destruct (Body.warning b) as [|j|g]; cbn [truthy_value quiet andb fst snd].
  - exists []. by rewrite app_nil_r.
  - exists []. rewrite app_nil_r. destruct (truthy j); by split.
  - eexists. split; [reflexivity |]. intros Hq.
    match goal with |- context [cb_run g ?args] => by destruct (Hq args) as [v ->] end.
Qed.

Lemma handleError_world action data url message b tr p res0 :
  exists suf,
    snd (Body.handleError action data url message (world_at b tr p res0))
    = world_at b (tr ++ suf) p res0.
Proof.
  rewrite handleError_run.
  destruct (Body.error b); first [by eexists | exists []; by rewrite app_nil_r].
Qed.

Lemma then_result_object action data url l b tr res0 :
  Body.then_result action data url (Some (JObj l)) (world_at b tr Pending res0)
  = let ce := Body.check_error action data url (JObj l)
                (world_at b tr Pending (Some (JObj l))) in
    match fst ce with
    | Normal true => (Normal tt, snd ce)
    | Normal false =>
        let cw := Body.check_warning action data url (JObj l) (snd ce) in
        match fst cw with
        | Normal _ =>
            match assoc "data" l with
            | Some d => Body.resolve (Some d) (snd cw)
            | None => (Normal tt, snd cw)
            end
        | Throw x => (Throw x, snd cw)
        end
    | Throw x => (Throw x, snd ce)
    end.
Proof.
  unfold Body.then_result. cbn [truthy_opt truthy negb].
  unfold bind at 1. cbn [Body.set_res modify Body.this Body.trace Body.outcome].
  unfold bind at 1. cbv zeta.
  destruct (Body.check_error _ _ _ _ _) as [[[]|x] w']; cbn [fst snd]; try reflexivity.
  unfold bind at 1.
  destruct (Body.check_warning _ _ _ _ _) as [[[]|x] w'']; cbn [fst snd]; try reflexivity.
  cbn [js_in js_get lift]. unfold bind, ret.
  destruct (assoc "data" l); [by rewrite bool_decide_eq_true_2 by (by eexists) |].
  rewrite bool_decide_eq_false_2; [done |]. by intros [? ?].
Qed.

(** What the chain makes of an object envelope [l] once the first [then]
    has returned it: the trace goes on from that of the error check, and
    the promise is the one the error check left unless the check fell
    through, in which case it is resolved with the [data] field if there is
    one and the warning stage completes. *)
Lemma caught_object b action data url r l tr1 tr2 :
  Body.then_response action data url r (world_at b tr1 Pending None)
  = (Normal (Some (JObj l)), world_at b tr2 Pending None) ->
  let ce := Body.check_error action data url (JObj l)
              (world_at b tr2 Pending (Some (JObj l))) in
  exists suf,
    snd (Body.caught action data url (Fulfilled r) (world_at b tr1 Pending None))
    = world_at b (Body.trace (snd ce) ++ suf)
        (match fst ce with
         | Normal false =>
             match assoc "data" l,
                   fst (Body.check_warning action data url (JObj l) (snd ce)) with
             | Some d, Normal _ => Resolved (Some d)
             | _, _ => Pending
             end
         | _ => Body.outcome (snd ce)
         end)
        (Some (JObj l)).
Proof.
  intros Hresp ce. rewrite caught_unfold. cbv zeta. rewrite Hresp. cbn [fst snd].
  rewrite then_result_object. cbv zeta. fold ce.
  assert (Hce : exists tr' p',
             snd ce = world_at b tr' p' (Some (JObj l))
             /\ (fst ce = Normal false -> p' = Pending)).
  { subst ce. rewrite check_error_object.
    destruct (assoc "error" l) as [e|]; [| by eexists _, _].
    destruct (truthy e); [| by eexists _, _].
    destruct (Body.errorCode b) as [|j|f]; cbn [truthy_value];
      [by eexists _, _ | destruct (truthy j); by eexists _, _ |].
    cbv zeta. destruct (cb_run f _) as [v|x]; [| by eexists _, _].
    destruct (strictly_false v); by eexists _, _. }
  destruct Hce as (tr' & p' & Hw' & Hp'). rewrite Hw'. cbn [Body.trace Body.outcome].
  destruct (fst ce) as [[]|x]; cbn [fst snd].
  - exists []. by rewrite app_nil_r.
  - rewrite (Hp' eq_refl).
    destruct (check_warning_object action data url l b tr' Pending (Some (JObj l)))
      as (suf & Hcw & _).
    destruct (Body.check_warning _ _ _ _ _) as [[[]|x] w'']; cbn [fst snd] in *; subst w''.
    + destruct (assoc "data" l) as [d|]; cbn [fst snd]; by exists suf.
    + unfold Body.catch_reason.
      destruct (handleError_world action data url (failed_message action url x) b
                  (tr' ++ suf) Pending (Some (JObj l))) as (suf' & Hsuf').
      unfold failed_message in Hsuf'. rewrite Hsuf'.
      exists (suf ++ suf'). rewrite app_assoc. by destruct (assoc "data" l).
  - unfold Body.catch_reason.
    destruct (handleError_world action data url (failed_message action url x) b
                tr' p' (Some (JObj l))) as (suf' & Hsuf').
    unfold failed_message in Hsuf'. rewrite Hsuf'. by exists suf'.
Qed.

Lemma strictly_false_other v : v <> Some (JBool false) -> strictly_false v = false.
Proof. by destruct v as [[|[]| | | |]|]. Qed.

(** The world a dispatched call leaves when the body of its 2xx response
    was read and parsed to the object envelope [l]. *)
Lemma final_object b action service noun data r url init l :
  ok r = true ->
  json_body r = Normal (JObj l) ->
  fetched (Body.trace (final b action service noun data (Fulfilled r))) = [(url, init)] ->
  In ResponseJson (Body.trace (final b action service noun data (Fulfilled r))) ->
  exists tr2 suf,
    let ce := Body.check_error action data url (JObj l)
                (world_at b tr2 Pending (Some (JObj l))) in
    final b action service noun data (Fulfilled r)
    = world_at b (Body.trace (snd ce) ++ suf)
        (match fst ce with
         | Normal false =>
             match assoc "data" l,
                   fst (Body.check_warning action data url (JObj l) (snd ce)) with
             | Some d, Normal _ => Resolved (Some d)
             | _, _ => Pending
             end
         | _ => Body.outcome (snd ce)
         end)
        (Some (JObj l)).
Proof.
  intros Hok Hj Hf Hin.
  destruct (sent_run _ _ _ _ _ _ _ _ Hf) as (tr1 & Hrun). cbv zeta in Hrun.
  destruct Hrun as (Htr1 & Hfinal & _). rewrite Hfinal in Hin |- *. cbn [Body.trace] in Hin.
  destruct (response_read b action data url r (JObj l) tr1 Hok Hj Htr1 Hin) as (tr2 & Hresp).
  destruct (caught_object b action data url r l tr1 _ Hresp) as (suf & ->).
  cbn [Body.trace Body.outcome Body.res].
  eexists _, _. cbv zeta. by rewrite <- app_assoc.
Qed.

(** C1 (amended): for a parsed envelope with a truthy [error] field, the
    promise is rejected with the error object when no error-code hook is
    registered; a registered hook is invoked with the error object and the
    request info, the promise is rejected with the error object when the
    hook returns exactly [false], and for any other value returned the
    error is dropped: the promise is resolved with the [data] field when
    there is one, and stays pending otherwise. *)
Theorem errorCode_hook_false_rejects
    (b : Body.t) (action : actionOptions) (service noun : string) (data : json)
    (r : response) (url : string) (init : fetchInit) (l : list (string * json)) (e : json) :
  ok r = true ->
  json_body r = Normal (JObj l) ->
  fetched (Body.trace (final b action service noun data (Fulfilled r))) = [(url, init)] ->
  In ResponseJson (Body.trace (final b action service noun data (Fulfilled r))) ->
  assoc "error" l = Some e ->
  truthy e = true ->
  let w := final b action service noun data (Fulfilled r) in
  let args := envelope_args action data url (JObj l) e in
  (truthy_value (Body.errorCode b) = false -> Body.outcome w = Rejected (ServiceError e))
  /\ (forall f,
        Body.errorCode b = Func f ->
        In (Call KerrorCode f args) (Body.trace w)
        /\ (cb_run f args = Normal (Some (JBool false)) ->
            Body.outcome w = Rejected (ServiceError e))
        /\ (forall v,
              cb_run f args = Normal v -> v <> Some (JBool false) ->
              (assoc "data" l = None -> Body.outcome w = Pending)
              /\ (forall d, assoc "data" l = Some d -> quiet (Body.warning b) ->
                            Body.outcome w = Resolved (Some d)))).
Proof.
  intros Hok Hj Hf Hin He Ht w args. subst w args.
  destruct (final_object _ _ _ _ _ _ _ _ _ Hok Hj Hf Hin) as (tr2 & suf & ->).
  cbv zeta. rewrite check_error_object, He, Ht. cbn [Body.outcome Body.trace].
  split.
  - intros Hno.
    destruct (Body.errorCode b) as [|j|f]; cbn [truthy_value] in *;
      [done | by rewrite Hno | done].
  - intros f ->. cbv zeta. split; [| split].
    + destruct (cb_run f _) as [v|x]; [destruct (strictly_false v) |];
        cbn [fst snd Body.trace]; trace_member.
    + by intros ->.
    + intros v -> Hv. rewrite (strictly_false_other v Hv). cbn [fst snd]. split.
      * by intros ->.
      * intros d -> Hq.
        destruct (check_warning_object action data url l b
                    (tr2 ++ [Call KerrorCode f (envelope_args action data url (JObj l) e)])
                    Pending (Some (JObj l))) as (suf' & _ & Hcw).
        by rewrite (Hcw Hq).
Qed.

(** C2 (amended): for a parsed envelope without a [data] field the promise
    is never resolved, not even with an empty value: it stays pending when
    the envelope has no truthy [error] field, and when the error-code hook
    returned something other than [false] for that field. *)
Theorem missing_data_leaves_promise_pending
    (b : Body.t) (action : actionOptions) (service noun : string) (data : json)
    (r : response) (url : string) (init : fetchInit) (l : list (string * json)) :
  ok r = true ->
  json_body r = Normal (JObj l) ->
  fetched (Body.trace (final b action service noun data (Fulfilled r))) = [(url, init)] ->
  In ResponseJson (Body.trace (final b action service noun data (Fulfilled r))) ->
  assoc "data" l = None ->
  let w := final b action service noun data (Fulfilled r) in
  (forall v, Body.outcome w <> Resolved v)
  /\ (truthy_opt (assoc "error" l) = false -> Body.outcome w = Pending)
  /\ (forall e f v,
        assoc "error" l = Some e -> truthy e = true ->
        Body.errorCode b = Func f ->
        cb_run f (envelope_args action data url (JObj l) e) = Normal v ->
        v <> Some (JBool false) ->
        Body.outcome w = Pending).
Proof.
  intros Hok Hj Hf Hin Hd w. subst w.
  destruct (final_object _ _ _ _ _ _ _ _ _ Hok Hj Hf Hin) as (tr2 & suf & ->).
  cbv zeta. rewrite check_error_object, Hd. cbn [Body.outcome].
  split; [| split].
  - intros v.
    destruct (assoc "error" l) as [e|]; [| done].
    destruct (truthy e); [| done].
    destruct (Body.errorCode b) as [|j|f]; cbn [truthy_value];
      [done | by destruct (truthy j) |].
    cbv zeta. destruct (cb_run f _) as [v'|x]; [by destruct (strictly_false v') | done].
  - destruct (assoc "error" l) as [e|]; [| done]. cbn [truthy_opt]. by intros ->.
  - intros e f v -> -> -> Hv Hne. cbv zeta. by rewrite Hv, (strictly_false_other v Hne).
Qed.

(** ** Registration of one callback *)

(** The single-kind registrations refuse what is not a function, and
    leave the instance alone when they do. *)
Lemma register_refuses_non_callable k v b :
  typeof_function v = false ->
  exists message, Body.register k v b = (Throw (Error message), b).
Proof.
  intros Hv.
  destruct k; simpl;
    unfold Body.onError, Body.onErrorCode, Body.onNoSession, Body.onRequested,
      Body.onRequesting, Body.onWarning;
    rewrite Hv; by eexists.
Qed.

Lemma register_stores_function k f b :
  fst (Body.register k (Func f) b) = Normal tt
  /\ Body.slot k (after (Body.register k (Func f)) b) = Func f.
Proof. by destruct k. Qed.

(** C7: [onError] refuses a value that is not a function with an error,
    on the spot; [on] stores the same value in the error slot without a
    word, and the failure comes when a later call needs the hook: a
    [TypeError] out of the chain. *)
Theorem on_accepts_what_onError_refuses :
  Body.onError (Data (JNum 42)) Body.new
  = (Throw (Error "onError() called with an invalid callback"), Body.new)
  /\ Body.on {[ "error" := Data (JNum 42) ]} Body.new
     = (Normal tt, Body.set_error (Data (JNum 42)) Body.new)
  /\ escaped (Body.set_error (Data (JNum 42)) Body.new) Read "svc" "noun" JNull
       (Fulfilled (bare_response 500 JNull))
     = Throw (TypeError "_.error is not a function").
Proof. split; [reflexivity | split; [| reflexivity]]. by vm_compute. Qed.

(** ** Where the specification departs from the code *)

(** C1 as the specification has it does not hold: with an error-code hook
    that returns [false] the promise is rejected with the error object
    (the error is not suppressed), and with a hook that returns [undefined]
    the promise is not rejected: the error is dropped and the promise
    resolved with the data. *)
Lemma errorCode_false_is_not_suppression :
  Body.outcome
    (final (Body.set_errorCode (Func returns_false) Body.new) Read "svc" "noun" JNull
       (Fulfilled (json_response (JObj [("error", bad_field); ("data", JNum 1)]))))
  = Rejected (ServiceError bad_field)
  /\ Body.outcome
       (final (Body.set_errorCode (Func returns_undefined) Body.new) Read "svc" "noun" JNull
          (Fulfilled (json_response (JObj [("error", bad_field); ("data", JNum 1)]))))
     = Resolved (Some (JNum 1)).
Proof. split; reflexivity. Qed.

(** C2 as the specification has it does not hold: on the empty envelope
    the promise is not resolved with an empty value, it is left pending. *)
Lemma empty_envelope_is_not_resolved :
  Body.outcome (final Body.new Read "svc" "noun" JNull (Fulfilled (json_response (JObj []))))
  = Pending
  /\ Body.outcome (final Body.new Read "svc" "noun" JNull
                     (Fulfilled (json_response (JObj []))))
     <> Resolved None.
Proof. split; [reflexivity | discriminate]. Qed.

(** C3 as the specification has it does not hold: with an error hook
    registered, the body of a 200 response without content type is read
    after the hook was told, and the promise resolved with its data. *)
Lemma body_parsed_despite_content_type :
  content_type (bare_response 200 (JObj [("data", JNum 42)])) = None
  /\ In ResponseJson
       (Body.trace
          (final (Body.set_error (Func returns_undefined) Body.new) Read "svc" "noun" JNull
             (Fulfilled (bare_response 200 (JObj [("data", JNum 42)])))))
  /\ Body.outcome
       (final (Body.set_error (Func returns_undefined) Body.new) Read "svc" "noun" JNull
          (Fulfilled (bare_response 200 (JObj [("data", JNum 42)]))))
     = Resolved (Some (JNum 42)).
Proof. split; [reflexivity | split; [| reflexivity]]. vm_compute. tauto. Qed.

(** C4 as the specification has it does not hold: a 401 without
    no-session hook is not fatal when an error hook is registered: the
    error hook is told and nothing escapes the call. *)
Lemma unauthorized_is_not_fatal_with_error_hook :
  Body.noSession (Body.set_error (Func returns_undefined) Body.new) = null
  /\ escaped (Body.set_error (Func returns_undefined) Body.new) Read "svc" "noun" JNull
       (Fulfilled (bare_response 401 JNull))
     = Normal tt
  /\ existsb (is_call Kerror)
       (Body.trace
          (final (Body.set_error (Func returns_undefined) Body.new) Read "svc" "noun" JNull
             (Fulfilled (bare_response 401 JNull))))
     = true.
Proof. split; [reflexivity | split; reflexivity]. Qed.

(** ** The theorems at concrete inputs *)

Lemma errorCode_hook_false_rejects_witness :
  Body.outcome (final (Body.set_errorCode (Func returns_false) Body.new)
                  Read "svc" "noun" JNull
                  (Fulfilled (json_response (JObj [("error", bad_field)]))))
  = Rejected (ServiceError bad_field).
Proof.
  destruct (errorCode_hook_false_rejects
              (Body.set_errorCode (Func returns_false) Body.new)
              Read "svc" "noun" JNull (json_response (JObj [("error", bad_field)]))
              sample_url sample_init [("error", bad_field)] bad_field) as [_ H];
    [reflexivity | reflexivity | reflexivity | vm_compute; tauto | reflexivity
    | reflexivity |].
  destruct (H returns_false eq_refl) as (_ & Hfalse & _). exact (Hfalse eq_refl).
Defined.

Lemma missing_data_leaves_promise_pending_witness :
  Body.outcome (final Body.new Read "svc" "noun" JNull (Fulfilled (json_response (JObj []))))
  = Pending.
Proof.
  destruct (missing_data_leaves_promise_pending Body.new Read "svc" "noun" JNull
              (json_response (JObj [])) sample_url sample_init [])
    as (_ & H & _);
    [reflexivity | reflexivity | reflexivity | vm_compute; tauto | reflexivity |].
  exact (H eq_refl).
Defined.

Lemma invalid_content_type_is_reported_then_parsed_witness :
  In ResponseJson
    (Body.trace (final (Body.set_error (Func returns_undefined) Body.new)
                   Read "svc" "noun" JNull
                   (Fulfilled (bare_response 200 (JObj [("data", JNum 42)]))))).
Proof.
  destruct (invalid_content_type_is_reported_then_parsed
              (Body.set_error (Func returns_undefined) Body.new)
              Read "svc" "noun" JNull (bare_response 200 (JObj [("data", JNum 42)]))
              sample_url sample_init) as [_ H];
    [reflexivity | discriminate | reflexivity |].
  destruct (H returns_undefined eq_refl) as [_ Hread]. exact (Hread None eq_refl).
Defined.

Lemma unauthorized_without_hook_goes_to_catch_witness :
  In (Call KnoSession returns_undefined [])
    (Body.trace (final (Body.set_noSession (Func returns_undefined) Body.new)
                   Read "svc" "noun" JNull (Fulfilled (bare_response 401 JNull))))
  /\ escaped (Body.set_error (Func (raises (Error "stop"))) Body.new)
       Read "svc" "noun" JNull (Fulfilled (bare_response 401 JNull))
     = Throw (Error "stop").
Proof.
  split.
  - destruct (unauthorized_without_hook_goes_to_catch
                (Body.set_noSession (Func returns_undefined) Body.new)
                Read "svc" "noun" JNull (bare_response 401 JNull) sample_url sample_init)
      as (_ & _ & H & _);
      [reflexivity | reflexivity |].
    destruct (H returns_undefined None eq_refl eq_refl) as [Hin _]. exact Hin.
  - destruct (unauthorized_without_hook_goes_to_catch
                (Body.set_error (Func (raises (Error "stop"))) Body.new)
                Read "svc" "noun" JNull (bare_response 401 JNull) sample_url sample_init)
      as (_ & _ & _ & H);
      [reflexivity | reflexivity |].
    destruct (H eq_refl) as [Hhook _].
    destruct (Hhook (raises (Error "stop")) eq_refl) as (_ & _ & Hthrows).
    destruct (Hthrows (Error "stop") eq_refl) as [_ Hesc]. exact (Hesc eq_refl).
Defined.

Lemma request_method_and_payload_encoding_witness :
  (exists init,
      fetched (Body.trace (final Body.new Read "svc" "noun" sample_payload
                             (Fulfilled (json_response (JObj [("data", JNum 42)])))))
      = [("https://localhost/svc/noun?d=" +:+ sample_query, init)]
      /\ method init = "GET"
      /\ body init = None)
  /\ (exists init,
        fetched (Body.trace (final Body.new Update "svc" "noun" sample_payload
                               (Fulfilled (json_response (JObj [("data", JNum 42)])))))
        = [("https://localhost/svc/noun", init)]
        /\ method init = "PUT"
        /\ body init = percent_decode sample_query).
Proof.
  split.
  - destruct (request_method_and_payload_encoding Body.new Read "svc" "noun"
                sample_payload (Fulfilled (json_response (JObj [("data", JNum 42)]))))
      as (url & init & Hf & Hm & _ & Hread & _); [reflexivity |].
    destruct Hread as [-> Hbody]; [discriminate | reflexivity |].
    exists init. split; [exact Hf | split; [exact Hm | exact Hbody]].
  - destruct (request_method_and_payload_encoding Body.new Update "svc" "noun"
                sample_payload (Fulfilled (json_response (JObj [("data", JNum 42)]))))
      as (url & init & Hf & Hm & _ & _ & Hupdate & _); [reflexivity |].
    destruct Hupdate as [-> Hbody]; [discriminate | discriminate |].
    exists init. split; [exact Hf | split; [exact Hm | exact Hbody]].
Defined.

Lemma authorization_header_follows_session_witness :
  exists url init,
    fetched (Body.trace (final (after (Body.session (Some (Some "tok123"))) Body.new)
                           Read "svc" "noun" JNull
                           (Fulfilled (json_response (JObj [("data", JNum 42)])))))
    = [(url, init)]
    /\ header "Authorization" init = Some "tok123".
Proof.
  destruct (authorization_header_follows_session Body.new (Some "tok123")
              Read "svc" "noun" JNull
              (Fulfilled (json_response (JObj [("data", JNum 42)])))) as [Htok H].
  exact (H (after (Body.session (Some (Some "tok123"))) Body.new) Htok eq_refl).
Defined.

Lemma on_fills_known_slots_only_witness :
  Body.on (<["colour" := Data (JStr "red")]> {[ "error" := Func returns_undefined ]}) Body.new
  = Body.on {[ "error" := Func returns_undefined ]} Body.new.
Proof.
  destruct (on_fills_known_slots_only {[ "error" := Func returns_undefined ]} Body.new)
    as (_ & _ & _ & _ & H & _).
  apply H. intros []; discriminate.
Defined.

Lemma requested_fires_once_after_classification_witness :
  exists tr info,
    Body.trace (final (Body.set_requested (Func returns_undefined) Body.new)
                  Read "svc" "noun" JNull (Failed (TypeError "Failed to fetch")))
    = tr ++ [Call Krequested returns_undefined [ArgRequested info]]
    /\ (forall e, In e tr -> is_call Krequested e = false).
Proof.
  destruct (requested_fires_once_after_classification
              (Body.set_requested (Func returns_undefined) Body.new)
              Read "svc" "noun" JNull (Failed (TypeError "Failed to fetch"))
              returns_undefined) as (tr & info & Htr & Hno & _);
    [reflexivity | reflexivity |].
  exists tr, info. split; [exact Htr | exact Hno].
Defined.
